(** * Pagination of the support-ticket table

    A shallow embedding of the pagination logic of
    [src/components/Support/SupportTable.jsx]: the page count
    [totalPages], the click handler [handlePageChange] and the memoised
    page-button list [pageNumbers].

    Page numbers and item counts are JavaScript numbers holding integers
    (array lengths, counters moved by one); they are modelled as [Z].
    The [pages] array is a [list], [push] appends at the end, and the
    [Set] built from it is the list of its distinct members in insertion
    order. *)

From stdpp Require Import base decidable list list_numbers sets sorting.
From Stdlib Require Import ZArith Lia.

#[local] Open Scope Z_scope.

(** ** Values held by the [pages] array *)

(** The array mixes numbers and the string ['...']. *)
Inductive pageItem : Type :=
  | Page (n : Z)
  | Ellipsis.

#[global] Instance pageItem_eq_dec : EqDecision pageItem.
Proof. solve_decision. Defined.

#[global] Instance Page_inj : Inj (=) (=) Page.
Proof. by intros m n [= ->]. Qed.

(** ** The array and set primitives the component uses *)

Module JS.

(** [pages.push(x)] *)
Definition push (pages : list pageItem) (x : pageItem) : list pageItem :=
  pages ++ [x].

(** [pages.includes(x)]; on integers and on strings SameValueZero is
    plain equality. *)
Definition includes (pages : list pageItem) (x : pageItem) : bool :=
  bool_decide (x ∈ pages).

(** [s.add(x)] on a [Set] kept as its members in insertion order: a
    value already present is not inserted again, whatever its type. *)
Definition Set_add (s : list pageItem) (x : pageItem) : list pageItem :=
  if includes s x then s else push s x.

(** [[...new Set(pages)]]: the members are added from left to right and
    read back in insertion order. *)
Definition spread_new_Set (pages : list pageItem) : list pageItem :=
  foldl Set_add [] pages.

(** [for (let i = lo; i <= hi; i++) body]: the body runs on [lo],
    [lo + 1], ..., [hi], and not at all when [hi < lo]. *)
Definition for_to (lo hi : Z)
    (body : list pageItem → Z → list pageItem)
    (pages : list pageItem) : list pageItem :=
  foldl body pages (seqZ lo (hi - lo + 1)).

(** [Math.ceil(a / b)] for an integer [a] and a positive integer [b]
    (the quotient of two array-sized integers is rounded correctly, so
    its ceiling is the exact one). *)
Definition ceil_div (a b : Z) : Z := - ((- a) `div` b).

End JS.

(** ** Memoisation across renders *)

Module React.

(** What [useMemo] keeps between two renders: the dependency array of
    the last computation and the value it returned. *)
Record memo : Type := Memo {
  memo_deps : list Z;
  memo_value : list pageItem
}.

(** [useMemo(calculate, deps)]: [calculate] runs on the first render and
    whenever a dependency differs from the stored one; otherwise the
    stored value is handed back. The result is the value of this render
    and the cell left for the next one. *)
Definition useMemo (cell : option memo)
    (calculate : unit → list pageItem) (deps : list Z)
    : list pageItem * option memo :=
  match cell with
  | Some m =>
      if bool_decide (memo_deps m = deps) then (memo_value m, cell)
      else let v := calculate () in (v, Some (Memo deps v))
  | None => let v := calculate () in (v, Some (Memo deps v))
  end.

End React.

(** ** The component *)

(** The values the source gives its two module constants. *)
Module Config.

Definition ITEMS_PER_PAGE : Z := 10.
Definition PAGE_RANGE : Z := 2.

End Config.

Section SupportTable.

(** The component is read for any value of its two constants, so that
    statements can range over the page size and the range; [Config]
    holds the values of the source. *)
Variable ITEMS_PER_PAGE : Z.
Variable PAGE_RANGE : Z.

(** [const totalPages = Math.ceil(allTickets.length / ITEMS_PER_PAGE)] *)
Definition totalPages (allTickets_length : Z) : Z :=
  JS.ceil_div allTickets_length ITEMS_PER_PAGE.

(** [handlePageChange(page)], as the state [currentPage] after the
    call. *)
Definition handlePageChange (totalPages currentPage page : Z) : Z :=
  if bool_decide (page >= 1) && bool_decide (page ≤ totalPages)
  then page
  else currentPage.

(** Body of the loop over the window (lines 124-130): index 1 goes in
    only when the array already holds 1, and the last page only when the
    array does not hold it yet. *)
Definition window_step (totalPages : Z)
    (pages : list pageItem) (i : Z) : list pageItem :=
  if bool_decide (i ≠ 1) || JS.includes pages (Page 1) then
    if bool_decide (i = totalPages) && JS.includes pages (Page totalPages)
    then pages
    else JS.push pages (Page i)
  else pages.

(** The array [pages] as it stands just before the final [Set]
    conversion (lines 100-143). *)
Definition pages_built (currentPage totalPages : Z) : list pageItem :=
  let pages := [] in
  let maxPageButtons := PAGE_RANGE * 2 + 1 in
  if bool_decide (totalPages ≤ maxPageButtons + 2) then
    JS.for_to 1 totalPages (λ pages i, JS.push pages (Page i)) pages
  else
    let leftBound := Z.max 1 (currentPage - PAGE_RANGE) in
    let rightBound := Z.min totalPages (currentPage + PAGE_RANGE) in
    (* first page *)
    let pages :=
      if bool_decide (currentPage > PAGE_RANGE + 1)
         && bool_decide (totalPages > maxPageButtons + 2)
      then JS.push pages (Page 1) else pages in
    (* left ellipsis *)
    let pages :=
      if bool_decide (leftBound > 2)
      then JS.push pages Ellipsis else pages in
    (* pages around the current page *)
    let pages :=
      JS.for_to leftBound rightBound (window_step totalPages) pages in
    (* right ellipsis *)
    let pages :=
      if bool_decide (rightBound < totalPages - 1)
      then JS.push pages Ellipsis else pages in
    (* last page *)
    if bool_decide (totalPages ≠ 1)
       && negb (JS.includes pages (Page totalPages))
    then JS.push pages (Page totalPages) else pages.

(** The callback given to [useMemo] (lines 99-146): the array, passed
    through [[...new Set(pages)]]. *)
Definition pageNumbers (currentPage totalPages : Z) : list pageItem :=
  JS.spread_new_Set (pages_built currentPage totalPages).

(** The page buttons of one render, from the inputs the component
    holds: the current page and the number of filtered tickets. *)
Definition plan (currentPage totalItems : Z) : list pageItem :=
  pageNumbers currentPage (totalPages totalItems).

(** One render of the component: [pageNumbers] is read through
    [useMemo] with the dependency array [[currentPage, totalPages]]. *)
Definition render (cell : option React.memo)
    (currentPage allTickets_length : Z)
    : list pageItem * option React.memo :=
  let totalPages := totalPages allTickets_length in
  React.useMemo cell (λ _, pageNumbers currentPage totalPages)
    [currentPage; totalPages].

(** The memo cell after a series of renders of a freshly mounted
    component, each given by its current page and ticket count. *)
Definition renders (history : list (Z * Z)) : option React.memo :=
  foldl (λ cell r, (render cell r.1 r.2).2) None history.

End SupportTable.

(** The memo cell is fresh when the value it stores is the one the
    callback gives at the dependencies it stores. *)
Definition memo_fresh (PAGE_RANGE : Z) (cell : option React.memo) : Prop :=
  match cell with
  | None => True
  | Some m =>
      ∃ currentPage tp,
        React.memo_deps m = [currentPage; tp]
        ∧ React.memo_value m = pageNumbers PAGE_RANGE currentPage tp
  end.

(** ** The rows of the current page *)

Module Arr.

(** [l.slice(start, end)] as ECMAScript defines it: a negative index
    counts from the end, both indices are clamped to the array, and an
    end at or before the start gives the empty array. *)
Definition slice {A : Type} (l : list A) (start end_ : Z) : list A :=
  let len := Z.of_nat (length l) in
  let k :=
    if bool_decide (start < 0) then Z.max (len + start) 0
    else Z.min start len in
  let final :=
    if bool_decide (end_ < 0) then Z.max (len + end_) 0
    else Z.min end_ len in
  take (Z.to_nat (final - k)) (drop (Z.to_nat k) l).

End Arr.

Section rows.

Context {Ticket : Type}.
Variable ITEMS_PER_PAGE : Z.

(** The value the second effect gives to [displayedTickets]
    (lines 37-39). *)
Definition displayedTickets (currentPage : Z) (allTickets : list Ticket)
    : list Ticket :=
  let startIndex := (currentPage - 1) * ITEMS_PER_PAGE in
  let endIndex := startIndex + ITEMS_PER_PAGE in
  Arr.slice allTickets startIndex endIndex.

End rows.

(** ** The previous and next buttons *)

(** A click on the previous button (lines 315-318): a disabled button
    delivers no click, an enabled one asks for the page before. *)
Definition previousButton (totalPages currentPage : Z) : Z :=
  if bool_decide (currentPage = 1) then currentPage
  else handlePageChange totalPages currentPage (currentPage - 1).

(** A click on the next button (lines 341-344). *)
Definition nextButton (totalPages currentPage : Z) : Z :=
  if bool_decide (currentPage = totalPages) then currentPage
  else handlePageChange totalPages currentPage (currentPage + 1).

(** A click on an entry of the page list (lines 325-338): the ['...']
    entry is a [span] without a handler, a number asks for that page. *)
Definition pageButton (totalPages currentPage : Z) (page : pageItem) : Z :=
  match page with
  | Ellipsis => currentPage
  | Page n => handlePageChange totalPages currentPage n
  end.

(** The page numbers of a list, in the order listed. *)
Definition page_values (pages : list pageItem) : list Z :=
  omap (λ x, match x with Page n => Some n | Ellipsis => None end) pages.

(** ** Tickets and the search filter *)

Module Str.

(** A string, as its UTF-16 code units. *)
Definition t : Type := list N.

(** Whether [s] starts with [sub]. *)
Fixpoint startsWith (s sub : t) : bool :=
  match sub, s with
  | [], _ => true
  | _ :: _, [] => false
  | c :: sub', d :: s' => bool_decide (c = d) && startsWith s' sub'
  end.

(** [s.includes(sub)]: whether [sub] occurs in [s] at some position. *)
Fixpoint includes (s sub : t) : bool :=
  startsWith s sub
  || match s with
     | [] => false
     | _ :: s' => includes s' sub
     end.

End Str.

(** The fields of a ticket the component reads. *)
Module Ticket.

Record t : Type := mk {
  id : Str.t;
  submittedBy : Str.t;
  title : Str.t;
  dateSubmitted : Str.t;
  status : Str.t;
  avatar : Str.t
}.

End Ticket.

#[global] Instance Ticket_eq_dec : EqDecision Ticket.t.
Proof. solve_decision. Defined.

Section search.

(** [String.prototype.toLowerCase], left open: the statements below hold
    for every case mapping. *)
Variable toLowerCase : Str.t → Str.t.

(** The test of the filter of the first effect (lines 26-30). *)
Definition matches (searchTerm : Str.t) (ticket : Ticket.t) : bool :=
  Str.includes (toLowerCase (Ticket.title ticket)) (toLowerCase searchTerm)
  || Str.includes (toLowerCase (Ticket.submittedBy ticket))
       (toLowerCase searchTerm)
  || Str.includes (toLowerCase (Ticket.id ticket)) (toLowerCase searchTerm).

(** [fetchedTickets.filter(...)] *)
Definition filtered (searchTerm : Str.t) (fetchedTickets : list Ticket.t)
    : list Ticket.t :=
  filter (λ ticket, matches searchTerm ticket = true) fetchedTickets.

End search.

(** ** The state of the component, its handlers and its effects *)

Module St.

(** The seven [useState] cells (lines 15-21). [allTickets_ref] stands
    for the identity of the array held in [allTickets]: the dependency
    test of an effect compares arrays by identity, and every
    [setAllTickets] stores an array just made by [filter]. *)
Record t : Type := mk {
  currentPage : Z;
  allTickets : list Ticket.t;
  allTickets_ref : nat;
  displayedTickets : list Ticket.t;
  isModalOpen : bool;
  selectedTicket : option Ticket.t;
  searchTerm : Str.t;
  refreshTrigger : Z
}.

(** The values given to [useState]. *)
Definition initial : t := mk 1 [] 0 [] false None [] 0.

Definition setCurrentPage (v : Z) (s : t) : t :=
  mk v (allTickets s) (allTickets_ref s) (displayedTickets s)
    (isModalOpen s) (selectedTicket s) (searchTerm s) (refreshTrigger s).

Definition setAllTickets (v : list Ticket.t) (s : t) : t :=
  mk (currentPage s) v (S (allTickets_ref s)) (displayedTickets s)
    (isModalOpen s) (selectedTicket s) (searchTerm s) (refreshTrigger s).

Definition setDisplayedTickets (v : list Ticket.t) (s : t) : t :=
  mk (currentPage s) (allTickets s) (allTickets_ref s) v
    (isModalOpen s) (selectedTicket s) (searchTerm s) (refreshTrigger s).

Definition setIsModalOpen (v : bool) (s : t) : t :=
  mk (currentPage s) (allTickets s) (allTickets_ref s) (displayedTickets s)
    v (selectedTicket s) (searchTerm s) (refreshTrigger s).

Definition setSelectedTicket (v : option Ticket.t) (s : t) : t :=
  mk (currentPage s) (allTickets s) (allTickets_ref s) (displayedTickets s)
    (isModalOpen s) v (searchTerm s) (refreshTrigger s).

Definition setSearchTerm (v : Str.t) (s : t) : t :=
  mk (currentPage s) (allTickets s) (allTickets_ref s) (displayedTickets s)
    (isModalOpen s) (selectedTicket s) v (refreshTrigger s).

(** [setRefreshTrigger(prev => prev + 1)] *)
Definition bumpRefreshTrigger (s : t) : t :=
  mk (currentPage s) (allTickets s) (allTickets_ref s) (displayedTickets s)
    (isModalOpen s) (selectedTicket s) (searchTerm s) (refreshTrigger s + 1).

End St.

(** What the user can do. The calls into the ticket store are made by
    code outside this file, so an event carries what the call returned:
    the ticket found by [getTicketById], whether [updateTicketStatus] or
    [deleteTicket] succeeded, whether [window.confirm] was accepted. *)
Inductive event : Type :=
  | SearchChange (value : Str.t)
  | PreviousClick
  | NextClick
  | PageClick (page : pageItem)
  | OpenDetails (ticket : option Ticket.t)
  | CloseDetails
  | ResolveTicket (success : bool)
  | DeleteTicket (confirmed success : bool).

Section component.

Variable ITEMS_PER_PAGE : Z.
Variable toLowerCase : Str.t → Str.t.

(** The handler of an event, on the state of the render it was made
    in (lines 45-82, 162, 316, 331, 342). *)
Definition handle (ev : event) (s : St.t) : St.t :=
  let totalPages :=
    totalPages ITEMS_PER_PAGE (Z.of_nat (length (St.allTickets s))) in
  match ev with
  | SearchChange value => St.setSearchTerm value s
  | PreviousClick =>
      St.setCurrentPage (previousButton totalPages (St.currentPage s)) s
  | NextClick =>
      St.setCurrentPage (nextButton totalPages (St.currentPage s)) s
  | PageClick page =>
      St.setCurrentPage (pageButton totalPages (St.currentPage s) page) s
  | OpenDetails ticket =>
      St.setIsModalOpen true (St.setSelectedTicket ticket s)
  | CloseDetails =>
      St.bumpRefreshTrigger
        (St.setSelectedTicket None (St.setIsModalOpen false s))
  | ResolveTicket success =>
      if success then St.bumpRefreshTrigger s else s
  | DeleteTicket confirmed success =>
      if confirmed && success then St.bumpRefreshTrigger s else s
  end.

(** Whether the first effect runs after a render: on the first render,
    and when [searchTerm] or [refreshTrigger] differs from the render
    before (line 33). *)
Definition effect1_due (prev : option St.t) (cur : St.t) : bool :=
  match prev with
  | None => true
  | Some p =>
      negb (bool_decide (St.searchTerm p = St.searchTerm cur)
            && bool_decide (St.refreshTrigger p = St.refreshTrigger cur))
  end.

(** Whether the second effect runs: on the first render, and when
    [currentPage] or the array [allTickets] differs (line 40). *)
Definition effect2_due (prev : option St.t) (cur : St.t) : bool :=
  match prev with
  | None => true
  | Some p =>
      negb (bool_decide (St.currentPage p = St.currentPage cur)
            && bool_decide (St.allTickets_ref p = St.allTickets_ref cur))
  end.

(** The effects that follow one render, in their order. Each reads the
    state of that render; the updates they queue make the next state.
    [store] is what [getAllTickets] returns. *)
Definition commit (store : list Ticket.t) (prev : option St.t) (cur : St.t)
    : St.t :=
  let s := cur in
  let s :=
    if effect1_due prev cur then
      St.setCurrentPage 1
        (St.setAllTickets (filtered toLowerCase (St.searchTerm cur) store) s)
    else s in
  if effect2_due prev cur then
    St.setDisplayedTickets
      (displayedTickets ITEMS_PER_PAGE (St.currentPage cur)
         (St.allTickets cur)) s
  else s.

(** Renders follow one another for as long as an effect is due; [fuel]
    bounds their number. *)
Fixpoint settle (fuel : nat) (store : list Ticket.t)
    (prev : option St.t) (cur : St.t) : St.t :=
  match fuel with
  | O => cur
  | S fuel =>
      if effect1_due prev cur || effect2_due prev cur
      then settle fuel store (Some cur) (commit store prev cur)
      else cur
  end.

(** The component once mounted, and after an event. *)
Definition mount (fuel : nat) (store : list Ticket.t) : St.t :=
  settle fuel store None St.initial.

Definition step (fuel : nat) (store : list Ticket.t) (ev : event)
    (s : St.t) : St.t :=
  settle fuel store (Some s) (handle ev s).

(** The component after a series of events, each with the content of the
    ticket store at that time. *)
Definition run (fuel : nat) (store : list Ticket.t)
    (history : list (list Ticket.t * event)) : St.t :=
  foldl (λ s h, step fuel h.1 h.2 s) (mount fuel store) history.

(** What every settled state of the component satisfies: the rows shown
    are those of the current page, the current page is 1 or a page that
    exists, and a closed modal holds no ticket. *)
Definition consistent (s : St.t) : Prop :=
  St.displayedTickets s
  = displayedTickets ITEMS_PER_PAGE (St.currentPage s) (St.allTickets s)
  ∧ 1 ≤ St.currentPage s
  ∧ (St.currentPage s = 1
     ∨ St.currentPage s
       ≤ totalPages ITEMS_PER_PAGE (Z.of_nat (length (St.allTickets s))))
  ∧ (St.isModalOpen s = false → St.selectedTicket s = None).

End component.

(** ** Data for the examples *)

Module Sample.

(** [toLowerCase] on strings of ASCII characters: the letters A to Z
    (65 to 90) move to a to z. *)
Definition toLowerCase (s : Str.t) : Str.t :=
  (λ c, if bool_decide (65 ≤ c ≤ 90)%N then (c + 32)%N else c) <$> s.

(** Ticket "T<n>" with the title "Bug", submitted by "Ann". *)
Definition ticket (n : N) : Ticket.t :=
  Ticket.mk [84; 48 + n]%N [65; 110; 110]%N [66; 117; 103]%N [] [] [].

(** Five tickets, "T1" to "T5". *)
Definition store : list Ticket.t := ticket <$> [1; 2; 3; 4; 5]%N.

End Sample.

(** ** Facts about the primitives *)

Section primitives.

Implicit Types (x : pageItem) (pages s : list pageItem).

Lemma includes_true pages x : JS.includes pages x = true ↔ x ∈ pages.
Proof. unfold JS.includes. apply bool_decide_eq_true. Qed.

Lemma includes_false pages x : JS.includes pages x = false ↔ x ∉ pages.
Proof. unfold JS.includes. apply bool_decide_eq_false. Qed.

Lemma elem_of_push pages x y : y ∈ JS.push pages x ↔ y ∈ pages ∨ y = x.
Proof.
  unfold JS.push. rewrite elem_of_app, list_elem_of_singleton. tauto.
Qed.

Lemma elem_of_Set_add s x y : y ∈ JS.Set_add s x ↔ y ∈ s ∨ y = x.
Proof.
  unfold JS.Set_add. destruct (JS.includes s x) eqn:E.
  - apply includes_true in E. split; [auto|]. intros [?| ->]; done.
  - apply elem_of_push.
Qed.

Lemma NoDup_Set_add s x : NoDup s → NoDup (JS.Set_add s x).
Proof.
  intros Hs. unfold JS.Set_add. destruct (JS.includes s x) eqn:E; [done|].
  apply includes_false in E. unfold JS.push.
  apply NoDup_app. split_and!; [done| |apply NoDup_singleton].
  intros y Hy ->%list_elem_of_singleton. done.
Qed.

(** Adding the members of [pages] to a set [s] that already holds some. *)
Lemma elem_of_foldl_Set_add pages s y :
  y ∈ foldl JS.Set_add s pages ↔ y ∈ s ∨ y ∈ pages.
Proof.
  revert s. induction pages as [|x pages IH]; intros s; simpl.
  - rewrite elem_of_nil. tauto.
  - rewrite IH, elem_of_Set_add, elem_of_cons. tauto.
Qed.

Lemma NoDup_foldl_Set_add pages s :
  NoDup s → NoDup (foldl JS.Set_add s pages).
Proof.
  revert s. induction pages as [|x pages IH]; intros s Hs; simpl; [done|].
  apply IH, NoDup_Set_add, Hs.
Qed.

Lemma foldl_Set_add_NoDup pages s :
  NoDup (s ++ pages) → foldl JS.Set_add s pages = s ++ pages.
Proof.
  revert s. induction pages as [|x pages IH]; intros s Hs; simpl.
  - by rewrite app_nil_r.
  - assert (JS.Set_add s x = s ++ [x]) as ->.
    { unfold JS.Set_add, JS.push.
      destruct (JS.includes s x) eqn:E; [|done].
      apply includes_true in E. apply NoDup_app in Hs as (_ & Hs & _).
      destruct (Hs x E). left. }
    rewrite IH; rewrite <- app_assoc; done.
Qed.

(** The spread of the set has the members of the array, each once, and
    leaves an array without repetitions as it is. *)
Lemma elem_of_spread_new_Set pages y :
  y ∈ JS.spread_new_Set pages ↔ y ∈ pages.
Proof.
  unfold JS.spread_new_Set. rewrite elem_of_foldl_Set_add, elem_of_nil.
  tauto.
Qed.

Lemma NoDup_spread_new_Set pages : NoDup (JS.spread_new_Set pages).
Proof. apply NoDup_foldl_Set_add, NoDup_nil_2. Qed.

Lemma spread_new_Set_NoDup pages :
  NoDup pages → JS.spread_new_Set pages = pages.
Proof. intros H. unfold JS.spread_new_Set. by rewrite foldl_Set_add_NoDup. Qed.

(** The loop that pushes every index. *)
Lemma foldl_push_Page (l : list Z) pages :
  foldl (λ pages i, JS.push pages (Page i)) pages l = pages ++ (Page <$> l).
Proof.
  revert pages. induction l as [|i l IH]; intros pages; simpl.
  - by rewrite app_nil_r.
  - rewrite IH. unfold JS.push. by rewrite <- app_assoc.
Qed.

Lemma ceil_div_0 b : JS.ceil_div 0 b = 0.
Proof. unfold JS.ceil_div. simpl. by rewrite Zdiv_0_l. Qed.

End primitives.

(** ** The loop over the window *)

Section window.

Implicit Types (x : pageItem) (pages : list pageItem) (i tp : Z).

Lemma elem_of_window_step tp pages i x :
  x ∈ window_step tp pages i → x ∈ pages ∨ x = Page i.
Proof.
  unfold window_step.
  destruct (_ || _); [destruct (_ && _)|]; rewrite ?elem_of_push; tauto.
Qed.

Lemma window_step_mono tp pages i x :
  x ∈ pages → x ∈ window_step tp pages i.
Proof.
  unfold window_step.
  destruct (_ || _); [destruct (_ && _)|]; rewrite ?elem_of_push; tauto.
Qed.

(** Every index but 1 is in the array once its turn has passed. *)
Lemma window_step_hit tp pages i : i ≠ 1 → Page i ∈ window_step tp pages i.
Proof.
  intros Hi. unfold window_step.
  rewrite (bool_decide_eq_true_2 (i ≠ 1)) by done. simpl.
  destruct (bool_decide (i = tp)) eqn:E; simpl.
  - apply bool_decide_eq_true in E as <-.
    destruct (JS.includes pages (Page i)) eqn:E'.
    + by apply includes_true.
    + apply elem_of_push. by right.
  - apply elem_of_push. by right.
Qed.

(** Index 1 is pushed only into an array that already holds it. *)
Lemma window_step_first tp pages :
  Page 1 ∉ pages → window_step tp pages 1 = pages.
Proof.
  intros H%includes_false. unfold window_step. rewrite H.
  by rewrite bool_decide_eq_false_2 by (intros ?; done).
Qed.

Lemma elem_of_foldl_window_step tp (l : list Z) pages x :
  x ∈ foldl (window_step tp) pages l →
  x ∈ pages ∨ ∃ i, i ∈ l ∧ x = Page i.
Proof.
  revert pages. induction l as [|j l IH]; intros pages; simpl; [auto|].
  intros [[H| ->]%elem_of_window_step|(i & Hi & ->)]%IH.
  - by left.
  - right. exists j. split; [left|done].
  - right. exists i. split; [by right|done].
Qed.

Lemma foldl_window_step_mono tp (l : list Z) pages x :
  x ∈ pages → x ∈ foldl (window_step tp) pages l.
Proof.
  revert pages. induction l as [|j l IH]; intros pages H; simpl; [done|].
  by apply IH, window_step_mono.
Qed.

Lemma foldl_window_step_hit tp (l : list Z) pages i :
  i ∈ l → i ≠ 1 → Page i ∈ foldl (window_step tp) pages l.
Proof.
  revert pages. induction l as [|j l IH]; intros pages Hi Hne; simpl.
  - by apply elem_of_nil in Hi.
  - apply elem_of_cons in Hi as [->|Hi].
    + by apply foldl_window_step_mono, window_step_hit.
    + by apply IH.
Qed.

Lemma elem_of_for_to_window tp lo hi pages x :
  x ∈ JS.for_to lo hi (window_step tp) pages →
  x ∈ pages ∨ ∃ i, lo ≤ i ≤ hi ∧ x = Page i.
Proof.
  unfold JS.for_to.
  intros [H|(i & Hi%elem_of_seqZ & ->)]%elem_of_foldl_window_step.
  - by left.
  - right. exists i. split; [lia|done].
Qed.

Lemma for_to_window_hit tp lo hi pages i :
  lo ≤ i ≤ hi → i ≠ 1 → Page i ∈ JS.for_to lo hi (window_step tp) pages.
Proof.
  intros Hi Hne. unfold JS.for_to.
  apply foldl_window_step_hit; [|done]. apply elem_of_seqZ. lia.
Qed.

Lemma for_to_push_Page lo hi pages :
  JS.for_to lo hi (λ pages i, JS.push pages (Page i)) pages
  = pages ++ (Page <$> seqZ lo (hi - lo + 1)).
Proof. unfold JS.for_to. apply foldl_push_Page. Qed.

End window.

(** ** The page-button list *)

(** Splits a membership in an array built by pushes, conditionals and the
    window loop into the places the member can come from. *)
Ltac elem_of_built H :=
  repeat match type of H with
    | _ ∈ (if ?c then _ else _) => destruct c
    | _ ∈ JS.push _ _ => apply elem_of_push in H as [H|H]
    | _ ∈ JS.for_to _ _ (window_step _) _ =>
        let i := fresh "i" in
        let Hi := fresh "Hi" in
        apply elem_of_for_to_window in H as [H|(i & Hi & H)]
    | _ ∈ [] => by apply elem_of_nil in H
    | Page _ = Page _ => injection H as ->
    | Page _ = Ellipsis => discriminate H
    | Ellipsis = Page _ => discriminate H
    end.

Section pageNumbers_facts.

Variable PAGE_RANGE : Z.
Implicit Types (currentPage tp n : Z).

Lemma pages_built_dense currentPage tp :
  tp ≤ 2 * PAGE_RANGE + 3 →
  pages_built PAGE_RANGE currentPage tp = Page <$> seqZ 1 tp.
Proof.
  intros Hd. unfold pages_built. rewrite bool_decide_eq_true_2 by lia.
  rewrite for_to_push_Page. simpl. do 2 f_equal. lia.
Qed.

Lemma pageNumbers_dense currentPage tp :
  tp ≤ 2 * PAGE_RANGE + 3 →
  pageNumbers PAGE_RANGE currentPage tp = Page <$> seqZ 1 tp.
Proof.
  intros Hd. unfold pageNumbers. rewrite pages_built_dense by done.
  apply spread_new_Set_NoDup, (NoDup_fmap_2 Page), NoDup_seqZ.
Qed.

(** The members of the list are those of the array. *)
Lemma elem_of_pageNumbers currentPage tp x :
  x ∈ pageNumbers PAGE_RANGE currentPage tp
  ↔ x ∈ pages_built PAGE_RANGE currentPage tp.
Proof. apply elem_of_spread_new_Set. Qed.

Lemma NoDup_pageNumbers currentPage tp :
  NoDup (pageNumbers PAGE_RANGE currentPage tp).
Proof. apply NoDup_spread_new_Set. Qed.

Lemma pages_built_in_range currentPage tp n :
  1 ≤ tp →
  Page n ∈ pages_built PAGE_RANGE currentPage tp →
  1 ≤ n ≤ tp.
Proof.
  intros Htp H. unfold pages_built in H. case_bool_decide as Hd.
  - rewrite for_to_push_Page in H. simpl in H.
    apply list_elem_of_fmap in H as (i & [= ->] & Hi%elem_of_seqZ). lia.
  - cbv zeta in H. elem_of_built H; lia.
Qed.

(** In the windowed branch every index of the window except 1 is in the
    array. *)
Lemma pages_built_window currentPage tp i :
  2 * PAGE_RANGE + 3 < tp →
  Z.max 1 (currentPage - PAGE_RANGE) ≤ i
    ≤ Z.min tp (currentPage + PAGE_RANGE) →
  i ≠ 1 →
  Page i ∈ pages_built PAGE_RANGE currentPage tp.
Proof.
  intros Hs Hi Hne. unfold pages_built.
  rewrite bool_decide_eq_false_2 by lia. cbv zeta.
  repeat match goal with
    | |- _ ∈ (if ?c then _ else _) => destruct c
    | |- _ ∈ JS.push _ _ => apply elem_of_push; left
    end; by apply for_to_window_hit.
Qed.

End pageNumbers_facts.

(** ** The windowed branch: the first page and the gap markers *)

Section windowed_branch.

Variable PAGE_RANGE : Z.
Implicit Types (currentPage tp : Z) (pages : list pageItem).

Lemma window_step_keeps_first_out tp pages i :
  Page 1 ∉ pages → Page 1 ∉ window_step tp pages i.
Proof.
  intros H. destruct (decide (i = 1)) as [->|Hi].
  - by rewrite window_step_first.
  - intros [?|[= <-]]%elem_of_window_step; done.
Qed.

Lemma foldl_window_step_keeps_first_out tp (l : list Z) pages :
  Page 1 ∉ pages → Page 1 ∉ foldl (window_step tp) pages l.
Proof.
  revert pages. induction l as [|j l IH]; intros pages H; simpl; [done|].
  by apply IH, window_step_keeps_first_out.
Qed.

(** In the windowed branch page 1 is listed exactly when it is pushed
    as the leading anchor: the loop never adds it by itself. *)
Lemma pages_built_first currentPage tp :
  2 * PAGE_RANGE + 3 < tp →
  Page 1 ∈ pages_built PAGE_RANGE currentPage tp
  ↔ PAGE_RANGE + 1 < currentPage.
Proof.
  intros Hs. unfold pages_built.
  rewrite bool_decide_eq_false_2 by lia. cbv zeta.
  rewrite (bool_decide_eq_true_2 (tp > _)) by lia. rewrite andb_true_r.
  set (lo := Z.max 1 _). set (hi := Z.min tp _).
  destruct (decide (currentPage > PAGE_RANGE + 1)) as [Hc|Hc].
  - rewrite (bool_decide_eq_true_2 _ Hc). split; [lia|intros _].
    assert (Page 1 ∈ JS.for_to lo hi (window_step tp)
              (if bool_decide (lo > 2)
               then JS.push (JS.push [] (Page 1)) Ellipsis
               else JS.push [] (Page 1))) as Hloop.
    { apply foldl_window_step_mono.
      destruct (bool_decide _); rewrite ?elem_of_push; auto. }
    repeat match goal with
      | |- _ ∈ (if ?c then _ else _) => destruct c
      | |- _ ∈ JS.push _ _ => apply elem_of_push; left
      end; exact Hloop.
  - rewrite (bool_decide_eq_false_2 _ Hc). split; [|lia].
    intros H. exfalso.
    assert (Page 1 ∉ JS.for_to lo hi (window_step tp)
              (if bool_decide (lo > 2)
               then JS.push [] Ellipsis else [])) as Hloop.
    { apply foldl_window_step_keeps_first_out.
      destruct (bool_decide (lo > 2)); [|apply not_elem_of_nil].
      intros [[]%elem_of_nil|[=]]%elem_of_push. }
    destruct (bool_decide (tp ≠ 1)) eqn:Ht; simpl in H.
    + apply bool_decide_eq_true in Ht.
      repeat match type of H with
        | _ ∈ (if ?c then _ else _) => destruct c
        | _ ∈ JS.push _ _ => apply elem_of_push in H as [H|H]
        end; try done; injection H; congruence.
    + repeat match type of H with
        | _ ∈ (if ?c then _ else _) => destruct c
        | _ ∈ JS.push _ _ => apply elem_of_push in H as [H|H]
        end; done.
Qed.

(** The same on the list the component shows. *)
Lemma pageNumbers_first currentPage tp :
  2 * PAGE_RANGE + 3 < tp →
  Page 1 ∈ pageNumbers PAGE_RANGE currentPage tp
  ↔ PAGE_RANGE + 1 < currentPage.
Proof. intros Hs. by rewrite elem_of_pageNumbers, pages_built_first. Qed.

Lemma pageNumbers_window currentPage tp i :
  2 * PAGE_RANGE + 3 < tp →
  Z.max 1 (currentPage - PAGE_RANGE) ≤ i
    ≤ Z.min tp (currentPage + PAGE_RANGE) →
  i ≠ 1 →
  Page i ∈ pageNumbers PAGE_RANGE currentPage tp.
Proof.
  intros Hs Hi Hne. by apply elem_of_pageNumbers, pages_built_window.
Qed.

(** The list never holds ['...'] at two positions: the [Set] keeps one
    copy of the string. *)
Lemma pageNumbers_Ellipsis_once currentPage tp (i j : nat) :
  pageNumbers PAGE_RANGE currentPage tp !! i = Some Ellipsis →
  pageNumbers PAGE_RANGE currentPage tp !! j = Some Ellipsis →
  i = j.
Proof. apply NoDup_lookup, NoDup_pageNumbers. Qed.

End windowed_branch.

(** ** The memo cell never goes stale *)

Section memo.

Variable ITEMS_PER_PAGE : Z.
Variable PAGE_RANGE : Z.

Lemma render_value cell currentPage n :
  memo_fresh PAGE_RANGE cell →
  (render ITEMS_PER_PAGE PAGE_RANGE cell currentPage n).1
  = plan ITEMS_PER_PAGE PAGE_RANGE currentPage n.
Proof.
  unfold render, React.useMemo, plan.
  destruct cell as [[deps value]|]; simpl; [|done].
  intros (cp & tp & -> & ->). case_bool_decide as Hd; simpl; [|done].
  by injection Hd as -> ->.
Qed.

Lemma render_fresh cell currentPage n :
  memo_fresh PAGE_RANGE cell →
  memo_fresh PAGE_RANGE (render ITEMS_PER_PAGE PAGE_RANGE cell currentPage n).2.
Proof.
  unfold render, React.useMemo.
  destruct cell as [[deps value]|]; simpl.
  - intros Hc. case_bool_decide; simpl; [done|]. by eexists _, _.
  - intros _. by eexists _, _.
Qed.

Lemma foldl_render_fresh (history : list (Z * Z)) cell :
  memo_fresh PAGE_RANGE cell →
  memo_fresh PAGE_RANGE
    (foldl (λ cell r,
              (render ITEMS_PER_PAGE PAGE_RANGE cell r.1 r.2).2)
           cell history).
Proof.
  revert cell.
  induction history as [|r history IH]; intros cell Hc; simpl; [done|].
  by apply IH, render_fresh.
Qed.

Lemma renders_fresh history :
  memo_fresh PAGE_RANGE (renders ITEMS_PER_PAGE PAGE_RANGE history).
Proof. by apply foldl_render_fresh. Qed.

End memo.

(** ** The properties of the pager *)

(** C1, at an input where it fails: with 100 tickets, the constants of
    the source (10 per page, a range of 2) and the first page current,
    the windowed branch is taken, page 1 lies in the window from
    [max(1, 1 - 2)] to [min(10, 1 + 2)], and yet page 1 is not in the
    list. *)
Theorem window_misses_first_page :
  let pageRange := Config.PAGE_RANGE in
  let tp := totalPages Config.ITEMS_PER_PAGE 100 in
  2 * pageRange + 3 < tp
  ∧ 1 ≤ 1 ≤ tp
  ∧ Z.max 1 (1 - pageRange) ≤ 1 ≤ Z.min tp (1 + pageRange)
  ∧ Page 1 ∉ pageNumbers pageRange 1 tp.
Proof.
  split_and!; [done..|].
  apply (bool_decide_unpack _). by vm_compute.
Qed.

(** C2, scenario A as the code runs it: 100 tickets, 10 per page, range
    2, current page 1. The list is [2, 3, '...', 10]: page 1 is missing
    from its head. *)
Theorem scenario_A_first_page_dropped :
  Config.ITEMS_PER_PAGE = 10
  ∧ Config.PAGE_RANGE = 2
  ∧ totalPages Config.ITEMS_PER_PAGE 100 = 10
  ∧ plan Config.ITEMS_PER_PAGE Config.PAGE_RANGE 1 100
    = [Page 2; Page 3; Ellipsis; Page 10].
Proof. split_and!; by vm_compute. Qed.

(** C3, at an input where it fails: 20 pages, range 2, current page 10.
    The array holds the left and the right ['...'] before the [Set] is
    built, and the list read back from the [Set] holds one. *)
Theorem right_Ellipsis_collapsed :
  pages_built Config.PAGE_RANGE 10 20
  = [Page 1; Ellipsis; Page 8; Page 9; Page 10; Page 11; Page 12;
     Ellipsis; Page 20]
  ∧ pageNumbers Config.PAGE_RANGE 10 20
    = [Page 1; Ellipsis; Page 8; Page 9; Page 10; Page 11; Page 12;
       Page 20].
Proof. split; by vm_compute. Qed.

(** C4, scenario B as the code runs it: 100 tickets, 10 per page, range
    2, current page 5. The list has eight entries and one ['...']; the
    one between 7 and 10 is missing. *)
Theorem scenario_B_right_Ellipsis_dropped :
  totalPages Config.ITEMS_PER_PAGE 100 = 10
  ∧ plan Config.ITEMS_PER_PAGE Config.PAGE_RANGE 5 100
    = [Page 1; Ellipsis; Page 3; Page 4; Page 5; Page 6; Page 7; Page 10].
Proof. split; by vm_compute. Qed.

(** C5: when [totalPages <= 2 * PAGE_RANGE + 3] the list is page 1 up to
    page [totalPages] in order, and holds no ['...'], whatever the
    current page. *)
Theorem pageNumbers_dense_all_pages (PAGE_RANGE currentPage tp : Z) :
  tp ≤ 2 * PAGE_RANGE + 3 →
  pageNumbers PAGE_RANGE currentPage tp = Page <$> seqZ 1 tp
  ∧ Ellipsis ∉ pageNumbers PAGE_RANGE currentPage tp.
Proof.
  intros Hd. rewrite pageNumbers_dense by done. split; [done|].
  by intros (i & [=] & _)%list_elem_of_fmap.
Qed.

Lemma pageNumbers_dense_all_pages_witness :
  5 ≤ 2 * 2 + 3
  ∧ pageNumbers 2 3 5 = Page <$> seqZ 1 5
  ∧ Ellipsis ∉ pageNumbers 2 3 5.
Proof. split; [lia|apply (pageNumbers_dense_all_pages 2 3 5); lia]. Defined.

(** C6: with no ticket the list is empty, for every current page, every
    page size of at least 1 and every range of at least 0. *)
Theorem plan_no_items_empty (ITEMS_PER_PAGE PAGE_RANGE currentPage : Z) :
  1 ≤ ITEMS_PER_PAGE →
  0 ≤ PAGE_RANGE →
  totalPages ITEMS_PER_PAGE 0 = 0
  ∧ plan ITEMS_PER_PAGE PAGE_RANGE currentPage 0 = [].
Proof.
  intros _ Hr. unfold plan, totalPages. rewrite ceil_div_0. split; [done|].
  rewrite pageNumbers_dense by lia. by rewrite seqZ_nil.
Qed.

Lemma plan_no_items_empty_witness :
  1 ≤ 10 ∧ 0 ≤ 2 ∧ totalPages 10 0 = 0 ∧ plan 10 2 7 0 = [].
Proof.
  split; [lia|]. split; [lia|]. apply (plan_no_items_empty 10 2 7); lia.
Defined.

(** C7: no page number is listed twice: two positions of the list that
    hold the same page number are the same position. This needs no
    assumption on the input. *)
Theorem pageNumbers_Page_unique
    (PAGE_RANGE currentPage tp : Z) (i j : nat) (n : Z) :
  pageNumbers PAGE_RANGE currentPage tp !! i = Some (Page n) →
  pageNumbers PAGE_RANGE currentPage tp !! j = Some (Page n) →
  i = j.
Proof. apply NoDup_lookup, NoDup_pageNumbers. Qed.

Lemma pageNumbers_Page_unique_witness :
  pageNumbers 2 5 10 !! 2%nat = Some (Page 3)
  ∧ pageNumbers 2 5 10 !! 2%nat = Some (Page 3)
  ∧ 2%nat = 2%nat.
Proof.
  split; [reflexivity|]. split; [reflexivity|].
  apply (pageNumbers_Page_unique 2 5 10 2 2 3); reflexivity.
Defined.

(** C8: the list shown by a render is determined by the current page and
    the ticket count (the page size and the range being the constants of
    the component): two renders with the same inputs show the same list,
    whatever renders came before each and filled the memo cell. *)
Theorem render_deterministic
    (ITEMS_PER_PAGE PAGE_RANGE : Z) (before before' : list (Z * Z))
    (currentPage totalItems : Z) :
  (render ITEMS_PER_PAGE PAGE_RANGE
     (renders ITEMS_PER_PAGE PAGE_RANGE before) currentPage totalItems).1
  = (render ITEMS_PER_PAGE PAGE_RANGE
       (renders ITEMS_PER_PAGE PAGE_RANGE before') currentPage totalItems).1.
Proof. rewrite !render_value; [done|apply renders_fresh..]. Qed.

(** C9: a request for a page below 1 or above [totalPages] leaves the
    current page as it is, and so does a request for the current page
    itself. *)
Theorem handlePageChange_noop (tp currentPage n : Z) :
  n < 1 ∨ tp < n ∨ n = currentPage →
  handlePageChange tp currentPage n = currentPage.
Proof.
  intros H. unfold handlePageChange.
  repeat case_bool_decide; simpl; lia.
Qed.

Lemma handlePageChange_noop_witness :
  (0 < 1 ∨ 10 < 0 ∨ 0 = 4) ∧ handlePageChange 10 4 0 = 4.
Proof.
  split; [left; lia|]. apply (handlePageChange_noop 10 4 0). left. lia.
Defined.

(** C10: with at least one page, every page number in the list lies
    between 1 and [totalPages], whatever the current page and the
    range. *)
Theorem pageNumbers_Page_in_range (PAGE_RANGE currentPage tp n : Z) :
  1 ≤ tp →
  Page n ∈ pageNumbers PAGE_RANGE currentPage tp →
  1 ≤ n ≤ tp.
Proof.
  intros Htp H%elem_of_pageNumbers. by eapply pages_built_in_range.
Qed.

Lemma pageNumbers_Page_in_range_witness :
  1 ≤ 10 ∧ Page 7 ∈ pageNumbers 2 5 10 ∧ 1 ≤ 7 ≤ 10.
Proof.
  assert (Page 7 ∈ pageNumbers 2 5 10) as H
    by (apply (bool_decide_unpack _); vm_compute; exact I).
  split; [lia|]. split; [exact H|].
  apply (pageNumbers_Page_in_range 2 5 10 7); [lia|exact H].
Defined.

(** ** The page count and the rows of a page *)

Section rows_facts.

Context {Ticket : Type}.
Variable ITEMS_PER_PAGE : Z.
Hypothesis ITEMS_PER_PAGE_pos : 1 ≤ ITEMS_PER_PAGE.
Implicit Types (allTickets : list Ticket) (currentPage : Z).

(** The page count is the least number of pages that hold [n] rows. *)
Lemma totalPages_bounds n :
  (totalPages ITEMS_PER_PAGE n - 1) * ITEMS_PER_PAGE < n
    ≤ totalPages ITEMS_PER_PAGE n * ITEMS_PER_PAGE.
Proof.
  unfold totalPages, JS.ceil_div.
  pose proof (Z.div_mod (- n) ITEMS_PER_PAGE) as Hdm.
  pose proof (Z.mod_pos_bound (- n) ITEMS_PER_PAGE) as Hm.
  nia.
Qed.

(** From page 1 on, the rows of a page are the next [ITEMS_PER_PAGE]
    tickets after those of the pages before. *)
Lemma displayedTickets_take_drop currentPage allTickets :
  1 ≤ currentPage →
  displayedTickets ITEMS_PER_PAGE currentPage allTickets
  = take (Z.to_nat ITEMS_PER_PAGE)
      (drop (Z.to_nat ((currentPage - 1) * ITEMS_PER_PAGE)) allTickets).
Proof.
  intros Hp. unfold displayedTickets, Arr.slice. cbv zeta.
  set (start := (currentPage - 1) * ITEMS_PER_PAGE).
  set (len := Z.of_nat (length allTickets)).
  assert (0 ≤ start) by (unfold start; nia).
  rewrite !bool_decide_eq_false_2 by lia.
  destruct (decide (len ≤ start)) as [Hge|Hlt].
  - rewrite (drop_ge _ (Z.to_nat start)) by (unfold len in Hge; lia).
    by rewrite take_nil, Z.min_r, drop_ge, take_nil by (unfold len; lia).
  - rewrite (Z.min_l start) by lia.
    destruct (decide (start + ITEMS_PER_PAGE ≤ len)) as [He|He].
    + rewrite Z.min_l by lia. do 2 f_equal. lia.
    + rewrite Z.min_r by lia.
      rewrite !take_ge; [done|rewrite length_drop; unfold len in *; lia..].
Qed.

Lemma displayedTickets_length currentPage allTickets :
  1 ≤ currentPage →
  Z.of_nat (length (displayedTickets ITEMS_PER_PAGE currentPage allTickets))
  = Z.max 0 (Z.min ITEMS_PER_PAGE
               (Z.of_nat (length allTickets)
                - (currentPage - 1) * ITEMS_PER_PAGE)).
Proof.
  intros Hp. rewrite displayedTickets_take_drop by done.
  rewrite length_take, length_drop. nia.
Qed.

(** The pages from 1 to [k] hold the first [k * ITEMS_PER_PAGE]
    tickets. *)
Lemma displayedTickets_concat_take (k : nat) allTickets :
  concat ((λ p, displayedTickets ITEMS_PER_PAGE p allTickets)
            <$> seqZ 1 (Z.of_nat k))
  = take (Z.to_nat (Z.of_nat k * ITEMS_PER_PAGE)) allTickets.
Proof.
  induction k as [|k IH].
  - by rewrite seqZ_nil.
  - rewrite seqZ_S, fmap_app, concat_app, IH. simpl.
    rewrite app_nil_r, displayedTickets_take_drop by lia.
    replace (Z.to_nat ((1 + Z.of_nat k - 1) * ITEMS_PER_PAGE))
      with (Z.to_nat (Z.of_nat k * ITEMS_PER_PAGE)) by (f_equal; lia).
    rewrite take_take_drop. f_equal. nia.
Qed.

End rows_facts.

(** ** Properties of the rows and of the navigation *)

(** X1: for a page size of at least 1 the page count is the least number
    of pages that hold all the tickets: [totalPages] pages have room for
    them and one page fewer has not. *)
Theorem totalPages_least (ITEMS_PER_PAGE n : Z) :
  1 ≤ ITEMS_PER_PAGE →
  n ≤ totalPages ITEMS_PER_PAGE n * ITEMS_PER_PAGE
  ∧ (totalPages ITEMS_PER_PAGE n - 1) * ITEMS_PER_PAGE < n.
Proof. intros Hs. pose proof (totalPages_bounds _ Hs n). lia. Qed.

Lemma totalPages_least_witness :
  1 ≤ 10 ∧ 45 ≤ totalPages 10 45 * 10 ∧ (totalPages 10 45 - 1) * 10 < 45.
Proof. split; [lia|apply (totalPages_least 10 45); lia]. Defined.

(** X2: from page 1 on, row [j] of page [currentPage] is the ticket at
    index [(currentPage - 1) * ITEMS_PER_PAGE + j] of the filtered list,
    and there is no such row when there is no such ticket. *)
Theorem displayedTickets_row {Ticket : Type}
    (ITEMS_PER_PAGE currentPage : Z) (allTickets : list Ticket) (j : nat) :
  1 ≤ ITEMS_PER_PAGE →
  1 ≤ currentPage →
  Z.of_nat j < ITEMS_PER_PAGE →
  displayedTickets ITEMS_PER_PAGE currentPage allTickets !! j
  = allTickets
      !! Z.to_nat ((currentPage - 1) * ITEMS_PER_PAGE + Z.of_nat j).
Proof.
  intros Hs Hp Hj. rewrite displayedTickets_take_drop by done.
  rewrite lookup_take_lt, lookup_drop by lia. f_equal. nia.
Qed.

Lemma displayedTickets_row_witness :
  1 ≤ 2 ∧ 1 ≤ 2 ∧ Z.of_nat 1 < 2
  ∧ displayedTickets 2 2 [10; 11; 12; 13; 14] !! 1%nat
    = [10; 11; 12; 13; 14] !! Z.to_nat ((2 - 1) * 2 + Z.of_nat 1).
Proof.
  split; [lia|]. split; [lia|]. split; [simpl; lia|].
  apply (displayedTickets_row 2 2 [10; 11; 12; 13; 14] 1); simpl; lia.
Defined.

(** X3: a page never shows more than [ITEMS_PER_PAGE] rows, whatever the
    current page is, in range or not. *)
Theorem displayedTickets_at_most_page_size {Ticket : Type}
    (ITEMS_PER_PAGE currentPage : Z) (allTickets : list Ticket) :
  0 ≤ ITEMS_PER_PAGE →
  Z.of_nat (length (displayedTickets ITEMS_PER_PAGE currentPage allTickets))
  ≤ ITEMS_PER_PAGE.
Proof.
  intros Hs. unfold displayedTickets, Arr.slice. cbv zeta.
  rewrite length_take. repeat case_bool_decide; lia.
Qed.

Lemma displayedTickets_at_most_page_size_witness :
  0 ≤ 2 ∧ Z.of_nat (length (displayedTickets 2 (-1) [10; 11; 12; 13; 14])) ≤ 2.
Proof.
  split; [lia|].
  apply (displayedTickets_at_most_page_size 2 (-1) [10; 11; 12; 13; 14]).
  lia.
Defined.

(** X4: every page before the last shows exactly [ITEMS_PER_PAGE]
    rows. *)
Theorem displayedTickets_full_page {Ticket : Type}
    (ITEMS_PER_PAGE currentPage : Z) (allTickets : list Ticket) :
  1 ≤ ITEMS_PER_PAGE →
  1 ≤ currentPage
    < totalPages ITEMS_PER_PAGE (Z.of_nat (length allTickets)) →
  Z.of_nat (length (displayedTickets ITEMS_PER_PAGE currentPage allTickets))
  = ITEMS_PER_PAGE.
Proof.
  intros Hs Hp. rewrite displayedTickets_length by lia.
  pose proof (totalPages_bounds _ Hs (Z.of_nat (length allTickets))). nia.
Qed.

Lemma displayedTickets_full_page_witness :
  1 ≤ 2 ∧ 1 ≤ 2 < totalPages 2 (Z.of_nat (length [10; 11; 12; 13; 14]))
  ∧ Z.of_nat (length (displayedTickets 2 2 [10; 11; 12; 13; 14])) = 2.
Proof.
  split; [lia|]. split; [change (totalPages 2 _) with 3; lia|].
  apply (displayedTickets_full_page 2 2 [10; 11; 12; 13; 14]);
    [lia|change (totalPages 2 _) with 3; lia].
Defined.

(** X5: every page from 1 to [totalPages] shows at least one row. *)
Theorem displayedTickets_nonempty {Ticket : Type}
    (ITEMS_PER_PAGE currentPage : Z) (allTickets : list Ticket) :
  1 ≤ ITEMS_PER_PAGE →
  1 ≤ currentPage
    ≤ totalPages ITEMS_PER_PAGE (Z.of_nat (length allTickets)) →
  displayedTickets ITEMS_PER_PAGE currentPage allTickets ≠ [].
Proof.
  intros Hs Hp Hnil.
  pose proof (displayedTickets_length _ Hs currentPage allTickets) as Hl.
  rewrite Hnil in Hl. simpl in Hl.
  pose proof (totalPages_bounds _ Hs (Z.of_nat (length allTickets))). nia.
Qed.

Lemma displayedTickets_nonempty_witness :
  1 ≤ 2 ∧ 1 ≤ 3 ≤ totalPages 2 (Z.of_nat (length [10; 11; 12; 13; 14]))
  ∧ displayedTickets 2 3 [10; 11; 12; 13; 14] ≠ [].
Proof.
  split; [lia|]. split; [change (totalPages 2 _) with 3; lia|].
  apply (displayedTickets_nonempty 2 3 [10; 11; 12; 13; 14]);
    [lia|change (totalPages 2 _) with 3; lia].
Defined.

(** X6: a page past the last one shows no row. *)
Theorem displayedTickets_past_last {Ticket : Type}
    (ITEMS_PER_PAGE currentPage : Z) (allTickets : list Ticket) :
  1 ≤ ITEMS_PER_PAGE →
  1 ≤ currentPage →
  totalPages ITEMS_PER_PAGE (Z.of_nat (length allTickets)) < currentPage →
  displayedTickets ITEMS_PER_PAGE currentPage allTickets = [].
Proof.
  intros Hs Hp Hlast. apply length_zero_iff_nil.
  pose proof (displayedTickets_length _ Hs currentPage allTickets) as Hl.
  pose proof (totalPages_bounds _ Hs (Z.of_nat (length allTickets))). nia.
Qed.

Lemma displayedTickets_past_last_witness :
  1 ≤ 2 ∧ 1 ≤ 4
  ∧ totalPages 2 (Z.of_nat (length [10; 11; 12; 13; 14])) < 4
  ∧ displayedTickets 2 4 [10; 11; 12; 13; 14] = [].
Proof.
  split; [lia|]. split; [lia|]. split; [reflexivity|].
  apply (displayedTickets_past_last 2 4 [10; 11; 12; 13; 14]);
    [lia|lia|reflexivity].
Defined.

(** X7: the pages from 1 to [totalPages], one after the other, are the
    filtered list: every ticket is on one page, in its place, and none
    is shown twice. *)
Theorem displayedTickets_partition {Ticket : Type}
    (ITEMS_PER_PAGE : Z) (allTickets : list Ticket) :
  1 ≤ ITEMS_PER_PAGE →
  concat ((λ p, displayedTickets ITEMS_PER_PAGE p allTickets)
            <$> seqZ 1 (totalPages ITEMS_PER_PAGE
                          (Z.of_nat (length allTickets))))
  = allTickets.
Proof.
  intros Hs.
  pose proof (totalPages_bounds _ Hs (Z.of_nat (length allTickets))) as Hb.
  set (tp := totalPages _ _) in *.
  assert (0 ≤ tp) as Htp by nia.
  rewrite <- (Z2Nat.id tp Htp), displayedTickets_concat_take by done.
  apply take_ge. nia.
Qed.

Lemma displayedTickets_partition_witness :
  1 ≤ 2
  ∧ concat ((λ p, displayedTickets 2 p [10; 11; 12; 13; 14])
              <$> seqZ 1 (totalPages 2 (Z.of_nat
                                          (length [10; 11; 12; 13; 14]))))
    = [10; 11; 12; 13; 14].
Proof.
  split; [lia|].
  apply (displayedTickets_partition 2 [10; 11; 12; 13; 14]). lia.
Defined.

(** ** The windowed branch in closed form *)

Section closed_form.

Implicit Types (x : pageItem) (pages : list pageItem) (i tp : Z).

(** Reading an array back through a [Set] drops a value met before. *)
Lemma spread_new_Set_dup pages1 pages2 x :
  NoDup (pages1 ++ pages2) →
  x ∈ pages1 →
  JS.spread_new_Set (pages1 ++ x :: pages2) = pages1 ++ pages2.
Proof.
  intros Hnd Hx. unfold JS.spread_new_Set. rewrite foldl_app. simpl.
  pose proof Hnd as (Hnd1 & _ & _)%NoDup_app.
  pose proof (foldl_Set_add_NoDup pages1 []) as H1. simpl in H1.
  rewrite H1 by done.
  assert (JS.Set_add pages1 x = pages1) as ->.
  { unfold JS.Set_add. by rewrite (proj2 (includes_true _ _) Hx). }
  by apply foldl_Set_add_NoDup.
Qed.

(** Over indices not yet in the array the loop pushes each of them in
    turn, except index 1. *)
Lemma foldl_window_step_fresh tp (l : list Z) pages :
  NoDup l →
  (∀ i, i ∈ l → Page i ∉ pages) →
  foldl (window_step tp) pages l
  = pages ++ (Page <$> filter (λ i, i ≠ 1) l).
Proof.
  revert pages. induction l as [|j l IH]; intros pages Hnd Hfresh; simpl.
  - by rewrite app_nil_r.
  - apply NoDup_cons in Hnd as [Hj Hnd].
    destruct (decide (j = 1)) as [->|Hne].
    + rewrite window_step_first by (apply Hfresh; left).
      rewrite filter_cons_False by (intros ?; done).
      apply IH; [done|]. intros i Hi. apply Hfresh. by right.
    + assert (window_step tp pages j = pages ++ [Page j]) as ->.
      { unfold window_step, JS.push.
        rewrite (bool_decide_eq_true_2 (j ≠ 1)) by done. simpl.
        assert (JS.includes pages (Page j) = false) as Hinc
          by (apply includes_false, Hfresh; left).
        destruct (bool_decide (j = tp)) eqn:E; simpl; [|done].
        apply bool_decide_eq_true in E as <-. by rewrite Hinc. }
      rewrite filter_cons_True by done. rewrite IH; [|done|].
      * by rewrite fmap_cons, <- app_assoc.
      * intros i Hi [Hin|[= ->]%list_elem_of_singleton]%elem_of_app.
        -- by apply (Hfresh i); [right|].
        -- done.
Qed.

Lemma filter_ne_1_all (l : list Z) :
  (∀ i, i ∈ l → i ≠ 1) → filter (λ i, i ≠ 1) l = l.
Proof.
  induction l as [|j l IH]; intros Hl; [done|].
  rewrite filter_cons_True by (apply Hl; left).
  rewrite IH; [done|]. intros i Hi. apply Hl. by right.
Qed.

(** Without index 1 the window starts at 2 at the earliest. *)
Lemma filter_ne_1_seqZ lo hi :
  1 ≤ lo →
  filter (λ i, i ≠ 1) (seqZ lo (hi - lo + 1))
  = seqZ (Z.max 2 lo) (hi - Z.max 2 lo + 1).
Proof.
  intros Hlo. destruct (decide (lo = 1)) as [->|Hne].
  - destruct (decide (hi < 1)) as [Hhi|Hhi].
    + by rewrite !seqZ_nil by lia.
    + rewrite seqZ_cons by lia. rewrite filter_cons_False by (intros ?; done).
      rewrite filter_ne_1_all by (intros i ?%elem_of_seqZ; lia).
      f_equal; lia.
  - rewrite filter_ne_1_all by (intros i ?%elem_of_seqZ; lia).
    f_equal; lia.
Qed.

End closed_form.

#[local] Set Warnings "-clear-no-such-hyp".

(** Settles the tests of the goal that linear arithmetic decides. *)
Ltac decide_by_lia :=
  repeat match goal with
    | |- context [bool_decide ?P] =>
        first [ rewrite (bool_decide_eq_true_2 P) by lia
              | rewrite (bool_decide_eq_false_2 P) by lia ]
    end.

Section windowed_closed_form.

Variable PAGE_RANGE : Z.
Implicit Types (currentPage tp : Z).

Lemma pages_built_windowed currentPage tp :
  0 ≤ PAGE_RANGE →
  2 * PAGE_RANGE + 3 < tp →
  1 ≤ currentPage ≤ tp →
  pages_built PAGE_RANGE currentPage tp
  = (if bool_decide (PAGE_RANGE + 1 < currentPage) then [Page 1] else [])
    ++ (if bool_decide (PAGE_RANGE + 2 < currentPage)
        then [Ellipsis] else [])
    ++ (Page <$> seqZ (Z.max 2 (currentPage - PAGE_RANGE))
                   (Z.min tp (currentPage + PAGE_RANGE)
                    - Z.max 2 (currentPage - PAGE_RANGE) + 1))
    ++ (if bool_decide (currentPage + PAGE_RANGE < tp - 1)
        then [Ellipsis] else [])
    ++ (if bool_decide (currentPage + PAGE_RANGE < tp)
        then [Page tp] else []).
Proof.
  intros Hr Hs Hp. unfold pages_built, JS.for_to. cbv zeta.
  destruct (decide (PAGE_RANGE + 1 < currentPage));
    destruct (decide (PAGE_RANGE + 2 < currentPage));
    destruct (decide (currentPage + PAGE_RANGE < tp - 1));
    destruct (decide (currentPage + PAGE_RANGE < tp));
    try lia; decide_by_lia; simpl.
  all: rewrite foldl_window_step_fresh;
    [|apply NoDup_seqZ
     |intros i Hi%elem_of_seqZ; unfold JS.push; set_unfold; naive_solver lia].
  all: rewrite filter_ne_1_seqZ by lia.
  all: replace (Z.max 2 (Z.max 1 (currentPage - PAGE_RANGE)))
         with (Z.max 2 (currentPage - PAGE_RANGE)) by lia.
  all: unfold JS.push; simpl.
  all: first
    [ rewrite (proj2 (includes_false _ (Page tp)))
        by (set_unfold; naive_solver lia)
    | rewrite (proj2 (includes_true _ (Page tp)))
        by (set_unfold; do 2 right; exists tp; split; [done|lia]) ];
    simpl.
  all: rewrite <- ?app_assoc; simpl.
  all: by rewrite ?app_nil_r.
Qed.

(** Proves that a list made of single entries around a run [w] of page
    numbers has no repetition, from the bounds [Hw] of the run. *)
Ltac solve_NoDup_pages Hw :=
  rewrite ?NoDup_cons, ?NoDup_app, ?NoDup_cons;
  split_and!;
  try (apply (NoDup_fmap_2 Page); assumption);
  try apply NoDup_nil_2;
  set_unfold; unfold not; intros;
  repeat match goal with
    | H : _ ∨ _ |- _ => destruct H
    | H : _ ∧ _ |- _ => destruct H
    | H : ∃ _, _ |- _ => destruct H
    end;
  simplify_eq;
  repeat match goal with H : _ ∈ _ |- _ => apply Hw in H end;
  first [done | lia].

(** The page list of the windowed branch: the right ['...'] is there
    only when the left one is not. *)
Lemma pageNumbers_windowed currentPage tp :
  0 ≤ PAGE_RANGE →
  2 * PAGE_RANGE + 3 < tp →
  1 ≤ currentPage ≤ tp →
  pageNumbers PAGE_RANGE currentPage tp
  = (if bool_decide (PAGE_RANGE + 1 < currentPage) then [Page 1] else [])
    ++ (if bool_decide (PAGE_RANGE + 2 < currentPage)
        then [Ellipsis] else [])
    ++ (Page <$> seqZ (Z.max 2 (currentPage - PAGE_RANGE))
                   (Z.min tp (currentPage + PAGE_RANGE)
                    - Z.max 2 (currentPage - PAGE_RANGE) + 1))
    ++ (if bool_decide (currentPage ≤ PAGE_RANGE + 2)
        then [Ellipsis] else [])
    ++ (if bool_decide (currentPage + PAGE_RANGE < tp)
        then [Page tp] else []).
Proof.
  intros Hr Hs Hp. unfold pageNumbers.
  rewrite pages_built_windowed by done.
  set (w := seqZ _ _).
  assert (∀ i, i ∈ w →
            Z.max 2 (currentPage - PAGE_RANGE) ≤ i
              ≤ Z.min tp (currentPage + PAGE_RANGE)) as Hw
    by (intros i Hi%elem_of_seqZ; lia).
  assert (NoDup w) as Hnd by apply NoDup_seqZ.
  clearbody w.
  destruct (decide (PAGE_RANGE + 1 < currentPage));
    destruct (decide (PAGE_RANGE + 2 < currentPage));
    destruct (decide (currentPage + PAGE_RANGE < tp - 1));
    destruct (decide (currentPage + PAGE_RANGE < tp));
    try lia; decide_by_lia; simpl; rewrite ?app_nil_r.
  1: apply (spread_new_Set_dup (Page 1 :: Ellipsis :: (Page <$> w))
              [Page tp] Ellipsis); [|set_solver].
  2-5: apply spread_new_Set_NoDup.
  all: solve_NoDup_pages Hw.
Qed.

End windowed_closed_form.

(** ** Page numbers in order, and how many entries there can be *)

Section order_and_size.

Variable PAGE_RANGE : Z.
Implicit Types (currentPage tp : Z) (pages : list pageItem).

Lemma page_values_fmap (l : list Z) : page_values (Page <$> l) = l.
Proof.
  induction l as [|i l IH]; [done|].
  unfold page_values in *. simpl. by f_equal.
Qed.

Lemma page_values_app pages1 pages2 :
  page_values (pages1 ++ pages2) = page_values pages1 ++ page_values pages2.
Proof. apply omap_app. Qed.

Lemma StronglySorted_seqZ m n : StronglySorted Z.lt (seqZ m n).
Proof.
  destruct (decide (n ≤ 0)) as [Hn|Hn];
    [rewrite seqZ_nil by done; constructor|].
  rewrite <- (Z2Nat.id n) by lia.
  generalize (Z.to_nat n) as k. clear n Hn. intros k. revert m.
  induction k as [|k IH]; intros m.
  - rewrite seqZ_nil by done. constructor.
  - rewrite seqZ_cons by lia. constructor.
    + replace (Z.pred (Z.of_nat (S k))) with (Z.of_nat k) by lia. apply IH.
    + apply Forall_forall. intros i Hi%elem_of_seqZ. lia.
Qed.

(** The last page is in the array, whatever the current page. *)
Lemma pages_built_last currentPage tp :
  0 ≤ PAGE_RANGE → 1 ≤ tp →
  Page tp ∈ pages_built PAGE_RANGE currentPage tp.
Proof.
  intros Hr Htp. destruct (decide (tp ≤ 2 * PAGE_RANGE + 3)) as [Hd|Hd].
  - rewrite pages_built_dense by done.
    apply list_elem_of_fmap. exists tp. split; [done|].
    apply elem_of_seqZ. lia.
  - unfold pages_built. rewrite bool_decide_eq_false_2 by lia. cbv zeta.
    rewrite (bool_decide_eq_true_2 (tp ≠ 1)) by lia. simpl.
    match goal with
    | |- _ ∈ (if negb (JS.includes ?P _) then _ else _) =>
        destruct (JS.includes P (Page tp)) eqn:E; simpl
    end.
    + by apply includes_true.
    + apply elem_of_push. by right.
Qed.

(** Whatever is in the array is page 1, the marker, the last page or a
    page of the window. *)
Lemma pages_built_members currentPage tp x :
  2 * PAGE_RANGE + 3 < tp →
  x ∈ pages_built PAGE_RANGE currentPage tp →
  x ∈ [Page 1; Ellipsis; Page tp]
      ++ (Page <$> seqZ (Z.max 1 (currentPage - PAGE_RANGE))
                     (Z.min tp (currentPage + PAGE_RANGE)
                      - Z.max 1 (currentPage - PAGE_RANGE) + 1)).
Proof.
  intros Hs H. unfold pages_built in H.
  rewrite bool_decide_eq_false_2 in H by lia. cbv zeta in H.
  repeat match type of H with
    | _ ∈ (if ?c then _ else _) => destruct c
    | _ ∈ JS.push _ _ => apply elem_of_push in H as [H|H]
    | _ ∈ JS.for_to _ _ (window_step _) _ =>
        let i := fresh "i" in
        let Hi := fresh "Hi" in
        apply elem_of_for_to_window in H as [H|(i & Hi & H)]
    | _ ∈ [] => by apply elem_of_nil in H
    end; subst x; set_unfold; try tauto.
  all: do 3 right; eexists; split; [done|lia].
Qed.

End order_and_size.

(** ** Properties of the navigation *)

(** X8: a current page between 1 and [totalPages] stays there through
    any series of requests, in range or not. *)
Theorem handlePageChange_keeps_range
    (tp currentPage : Z) (requests : list Z) :
  1 ≤ currentPage ≤ tp →
  1 ≤ foldl (handlePageChange tp) currentPage requests ≤ tp.
Proof.
  revert currentPage.
  induction requests as [|n requests IH]; intros currentPage Hp; simpl.
  - done.
  - apply IH. unfold handlePageChange.
    repeat case_bool_decide; simpl; lia.
Qed.

Lemma handlePageChange_keeps_range_witness :
  1 ≤ 3 ≤ 10 ∧ 1 ≤ foldl (handlePageChange 10) 3 [0; 11; 10; -4; 12] ≤ 10.
Proof.
  split; [lia|].
  apply (handlePageChange_keeps_range 10 3 [0; 11; 10; -4; 12]). lia.
Defined.

(** X9: away from the ends the previous and next buttons move by one
    page and undo each other. *)
Theorem previous_next_round_trip (tp currentPage : Z) :
  1 < currentPage < tp →
  previousButton tp currentPage = currentPage - 1
  ∧ nextButton tp currentPage = currentPage + 1
  ∧ nextButton tp (previousButton tp currentPage) = currentPage
  ∧ previousButton tp (nextButton tp currentPage) = currentPage.
Proof.
  intros Hp. unfold previousButton, nextButton, handlePageChange.
  repeat (case_bool_decide; simpl; try lia).
Qed.

Lemma previous_next_round_trip_witness :
  1 < 4 < 10
  ∧ previousButton 10 4 = 4 - 1
  ∧ nextButton 10 4 = 4 + 1
  ∧ nextButton 10 (previousButton 10 4) = 4
  ∧ previousButton 10 (nextButton 10 4) = 4.
Proof. split; [lia|apply (previous_next_round_trip 10 4); lia]. Defined.

(** X10: with no ticket, hence no page, the previous and the next
    button leave the current page as it is, though the next button is
    not disabled then. *)
Theorem no_pages_buttons_hold (tp currentPage : Z) :
  tp ≤ 0 →
  previousButton tp currentPage = currentPage
  ∧ nextButton tp currentPage = currentPage.
Proof.
  intros Htp. unfold previousButton, nextButton, handlePageChange.
  split; repeat (case_bool_decide; simpl; try lia).
Qed.

Lemma no_pages_buttons_hold_witness :
  totalPages 10 0 ≤ 0
  ∧ previousButton (totalPages 10 0) 1 = 1
  ∧ nextButton (totalPages 10 0) 1 = 1.
Proof.
  split; [change (totalPages 10 0) with 0; lia|].
  apply (no_pages_buttons_hold (totalPages 10 0) 1).
  change (totalPages 10 0) with 0; lia.
Defined.

(** X11: every numbered entry of the page list works: a click on it
    makes its number the current page. *)
Theorem pageButton_navigates (PAGE_RANGE tp currentPage n : Z) :
  1 ≤ tp →
  Page n ∈ pageNumbers PAGE_RANGE currentPage tp →
  pageButton tp currentPage (Page n) = n.
Proof.
  intros Htp H%elem_of_pageNumbers%pages_built_in_range; [|done].
  simpl. unfold handlePageChange. by rewrite !bool_decide_eq_true_2 by lia.
Qed.

Lemma pageButton_navigates_witness :
  1 ≤ 10 ∧ Page 7 ∈ pageNumbers 2 5 10 ∧ pageButton 10 5 (Page 7) = 7.
Proof.
  assert (Page 7 ∈ pageNumbers 2 5 10) as H
    by (apply (bool_decide_unpack _); vm_compute; exact I).
  split; [lia|]. split; [exact H|].
  apply (pageButton_navigates 2 10 5 7); [lia|exact H].
Defined.

(** ** Properties of the page list *)

(** X12: the page list of the windowed branch, for a current page from 1
    to [totalPages] and a range of at least 0: page 1 when the current
    page is past [PAGE_RANGE + 1], the window from
    [max(2, currentPage - PAGE_RANGE)] to
    [min(totalPages, currentPage + PAGE_RANGE)], the last page when the
    window stops before it, and one ['...']: before the window when the
    current page is past [PAGE_RANGE + 2], after it otherwise. *)
Theorem pageNumbers_windowed_list (PAGE_RANGE currentPage tp : Z) :
  0 ≤ PAGE_RANGE →
  2 * PAGE_RANGE + 3 < tp →
  1 ≤ currentPage ≤ tp →
  pageNumbers PAGE_RANGE currentPage tp
  = (if bool_decide (PAGE_RANGE + 1 < currentPage) then [Page 1] else [])
    ++ (if bool_decide (PAGE_RANGE + 2 < currentPage)
        then [Ellipsis] else [])
    ++ (Page <$> seqZ (Z.max 2 (currentPage - PAGE_RANGE))
                   (Z.min tp (currentPage + PAGE_RANGE)
                    - Z.max 2 (currentPage - PAGE_RANGE) + 1))
    ++ (if bool_decide (currentPage ≤ PAGE_RANGE + 2)
        then [Ellipsis] else [])
    ++ (if bool_decide (currentPage + PAGE_RANGE < tp)
        then [Page tp] else []).
Proof. apply pageNumbers_windowed. Qed.

Lemma pageNumbers_windowed_list_witness :
  0 ≤ 2 ∧ 2 * 2 + 3 < 10 ∧ 1 ≤ 9 ≤ 10
  ∧ pageNumbers 2 9 10
    = (if bool_decide (2 + 1 < 9) then [Page 1] else [])
      ++ (if bool_decide (2 + 2 < 9) then [Ellipsis] else [])
      ++ (Page <$> seqZ (Z.max 2 (9 - 2))
                     (Z.min 10 (9 + 2) - Z.max 2 (9 - 2) + 1))
      ++ (if bool_decide (9 ≤ 2 + 2) then [Ellipsis] else [])
      ++ (if bool_decide (9 + 2 < 10) then [Page 10] else []).
Proof.
  split; [lia|]. split; [lia|]. split; [lia|].
  apply (pageNumbers_windowed_list 2 9 10); lia.
Defined.

(** X13: in the windowed branch, under the same conditions, the list
    holds exactly one ['...']. *)
Theorem pageNumbers_windowed_one_Ellipsis (PAGE_RANGE currentPage tp : Z) :
  0 ≤ PAGE_RANGE →
  2 * PAGE_RANGE + 3 < tp →
  1 ≤ currentPage ≤ tp →
  length (filter (λ x, x = Ellipsis) (pageNumbers PAGE_RANGE currentPage tp))
  = 1%nat.
Proof.
  intros Hr Hs Hp. rewrite pageNumbers_windowed by done.
  assert (∀ l : list Z, filter (λ x, x = Ellipsis) (Page <$> l) = []) as Hw.
  { intros l. induction l as [|i l IH]; [done|].
    rewrite fmap_cons, filter_cons_False by done. exact IH. }
  rewrite !filter_app, Hw.
  destruct (decide (PAGE_RANGE + 2 < currentPage));
    repeat case_bool_decide; try lia; done.
Qed.

Lemma pageNumbers_windowed_one_Ellipsis_witness :
  0 ≤ 2 ∧ 2 * 2 + 3 < 10 ∧ 1 ≤ 5 ≤ 10
  ∧ length (filter (λ x, x = Ellipsis) (pageNumbers 2 5 10)) = 1%nat.
Proof.
  split; [lia|]. split; [lia|]. split; [lia|].
  apply (pageNumbers_windowed_one_Ellipsis 2 5 10); lia.
Defined.

(** X14: the current page is in the list, except page 1 in the windowed
    branch: it is there whenever the current page is at least 2, and
    also for page 1 when all pages are listed. *)
Theorem pageNumbers_current_listed (PAGE_RANGE currentPage tp : Z) :
  0 ≤ PAGE_RANGE →
  1 ≤ currentPage ≤ tp →
  2 ≤ currentPage ∨ tp ≤ 2 * PAGE_RANGE + 3 →
  Page currentPage ∈ pageNumbers PAGE_RANGE currentPage tp.
Proof.
  intros Hr Hp Hc.
  destruct (decide (tp ≤ 2 * PAGE_RANGE + 3)) as [Hd|Hd].
  - rewrite pageNumbers_dense by done.
    apply list_elem_of_fmap. exists currentPage. split; [done|].
    apply elem_of_seqZ. lia.
  - apply elem_of_pageNumbers, pages_built_window; lia.
Qed.

Lemma pageNumbers_current_listed_witness :
  0 ≤ 2 ∧ 1 ≤ 5 ≤ 10 ∧ (2 ≤ 5 ∨ 10 ≤ 2 * 2 + 3)
  ∧ Page 5 ∈ pageNumbers 2 5 10.
Proof.
  split; [lia|]. split; [lia|]. split; [left; lia|].
  apply (pageNumbers_current_listed 2 5 10); [lia|lia|left; lia].
Defined.

(** X15: the last page is in the list, whatever the current page. *)
Theorem pageNumbers_last_listed (PAGE_RANGE currentPage tp : Z) :
  0 ≤ PAGE_RANGE →
  1 ≤ tp →
  Page tp ∈ pageNumbers PAGE_RANGE currentPage tp.
Proof. intros Hr Htp. by apply elem_of_pageNumbers, pages_built_last. Qed.

Lemma pageNumbers_last_listed_witness :
  0 ≤ 2 ∧ 1 ≤ 10 ∧ Page 10 ∈ pageNumbers 2 1 10.
Proof.
  split; [lia|]. split; [lia|].
  apply (pageNumbers_last_listed 2 1 10); lia.
Defined.

(** X16: the list never has more than [2 * PAGE_RANGE + 4] entries,
    however many pages there are and whatever the current page. *)
Theorem pageNumbers_length_bound (PAGE_RANGE currentPage tp : Z) :
  0 ≤ PAGE_RANGE →
  Z.of_nat (length (pageNumbers PAGE_RANGE currentPage tp))
  ≤ 2 * PAGE_RANGE + 4.
Proof.
  intros Hr. destruct (decide (tp ≤ 2 * PAGE_RANGE + 3)) as [Hd|Hd].
  - rewrite pageNumbers_dense by done. rewrite length_fmap, length_seqZ. lia.
  - pose proof (submseteq_length _ _
      (NoDup_submseteq _ _ (NoDup_pageNumbers PAGE_RANGE currentPage tp)
         (λ x Hx, pages_built_members PAGE_RANGE currentPage tp x
                    ltac:(lia)
                    (proj1 (elem_of_pageNumbers _ _ _ _) Hx)))) as Hlen.
    rewrite length_app, length_fmap, length_seqZ in Hlen. simpl in Hlen.
    lia.
Qed.

Lemma pageNumbers_length_bound_witness :
  0 ≤ 2 ∧ Z.of_nat (length (pageNumbers 2 50 100)) ≤ 2 * 2 + 4.
Proof. split; [lia|apply (pageNumbers_length_bound 2 50 100); lia]. Defined.

(** X17: the page numbers of the list go up from left to right, for a
    current page from 1 to [totalPages] and a range of at least 0. *)
Theorem pageNumbers_ascending (PAGE_RANGE currentPage tp : Z) :
  0 ≤ PAGE_RANGE →
  1 ≤ currentPage ≤ tp →
  StronglySorted Z.lt (page_values (pageNumbers PAGE_RANGE currentPage tp)).
Proof.
  intros Hr Hp. destruct (decide (tp ≤ 2 * PAGE_RANGE + 3)) as [Hd|Hd].
  - rewrite pageNumbers_dense, page_values_fmap by done.
    apply StronglySorted_seqZ.
  - rewrite pageNumbers_windowed by lia.
    rewrite !page_values_app, page_values_fmap.
    set (w := seqZ _ _).
    assert (∀ i, i ∈ w →
              Z.max 2 (currentPage - PAGE_RANGE) ≤ i
                ≤ Z.min tp (currentPage + PAGE_RANGE)) as Hw
      by (intros i Hi%elem_of_seqZ; lia).
    assert (StronglySorted Z.lt w) as Hsorted by apply StronglySorted_seqZ.
    clearbody w.
    destruct (decide (PAGE_RANGE + 1 < currentPage));
      destruct (decide (PAGE_RANGE + 2 < currentPage));
      destruct (decide (currentPage + PAGE_RANGE < tp));
      try lia; decide_by_lia; simpl; rewrite ?app_nil_r.
    all: rewrite ?StronglySorted_cons, ?StronglySorted_app, ?Forall_forall.
    all: split_and?; try done; try (by repeat constructor).
    all: set_unfold; intros;
      repeat match goal with
        | H : _ ∨ _ |- _ => destruct H
        | H : _ ∈ _ |- _ => apply Hw in H
        end; subst; lia.
Qed.

Lemma pageNumbers_ascending_witness :
  0 ≤ 2 ∧ 1 ≤ 5 ≤ 10 ∧ StronglySorted Z.lt (page_values (pageNumbers 2 5 10)).
Proof.
  split; [lia|]. split; [lia|]. apply (pageNumbers_ascending 2 5 10); lia.
Defined.

(** X18: in the windowed branch page 1 is in the list exactly when the
    current page is past [PAGE_RANGE + 1]: near the start of the list
    the first page has no entry. *)
Theorem first_page_listed_iff_anchor (PAGE_RANGE currentPage tp : Z) :
  2 * PAGE_RANGE + 3 < tp →
  Page 1 ∈ pageNumbers PAGE_RANGE currentPage tp
  ↔ PAGE_RANGE + 1 < currentPage.
Proof.
  intros Hs. by rewrite elem_of_pageNumbers, pages_built_first.
Qed.

Lemma first_page_listed_iff_anchor_witness :
  2 * 2 + 3 < 10 ∧ (Page 1 ∈ pageNumbers 2 3 10 ↔ 2 + 1 < 3).
Proof.
  split; [lia|apply (first_page_listed_iff_anchor 2 3 10); lia].
Defined.

(** X19: in the windowed branch every page of the window from
    [max(1, currentPage - PAGE_RANGE)] to
    [min(totalPages, currentPage + PAGE_RANGE)] other than page 1 is in
    the list. *)
Theorem window_pages_listed (PAGE_RANGE currentPage tp i : Z) :
  2 * PAGE_RANGE + 3 < tp →
  Z.max 1 (currentPage - PAGE_RANGE) ≤ i
    ≤ Z.min tp (currentPage + PAGE_RANGE) →
  i ≠ 1 →
  Page i ∈ pageNumbers PAGE_RANGE currentPage tp.
Proof.
  intros Hs Hi Hne. by apply elem_of_pageNumbers, pages_built_window.
Qed.

Lemma window_pages_listed_witness :
  2 * 2 + 3 < 10
  ∧ Z.max 1 (1 - 2) ≤ 3 ≤ Z.min 10 (1 + 2)
  ∧ 3 ≠ 1
  ∧ Page 3 ∈ pageNumbers 2 1 10.
Proof.
  split; [lia|]. split; [lia|]. split; [lia|].
  apply (window_pages_listed 2 1 10 3); lia.
Defined.

(** X20: the memoised list is never stale: after any series of renders,
    the list a render shows is the one computed afresh from its current
    page and ticket count. *)
Theorem render_never_stale
    (ITEMS_PER_PAGE PAGE_RANGE : Z) (before : list (Z * Z))
    (currentPage totalItems : Z) :
  (render ITEMS_PER_PAGE PAGE_RANGE
     (renders ITEMS_PER_PAGE PAGE_RANGE before) currentPage totalItems).1
  = plan ITEMS_PER_PAGE PAGE_RANGE currentPage totalItems.
Proof. apply render_value, renders_fresh. Qed.

(** ** The search filter *)

Section search_facts.

Implicit Types (s sub : Str.t).

Lemma startsWith_spec s sub :
  Str.startsWith s sub = true ↔ ∃ rest, s = sub ++ rest.
Proof.
  revert s. induction sub as [|c sub IH]; intros s; simpl.
  - split; [intros _; by exists s|intros _; by destruct s].
  - destruct s as [|d s]; simpl; [split; [done|by intros (? & ?)]|].
    rewrite andb_true_iff, bool_decide_eq_true, IH. split.
    + intros (-> & rest & ->). by exists rest.
    + intros (rest & [= -> ->]). split; [done|by exists rest].
Qed.

(** [includes] is the substring test. *)
Lemma includes_spec s sub :
  Str.includes s sub = true ↔ ∃ before after, s = before ++ sub ++ after.
Proof.
  induction s as [|d s IH];
    [change (Str.includes [] sub) with (Str.startsWith [] sub || false)
    |change (Str.includes (d :: s) sub)
       with (Str.startsWith (d :: s) sub || Str.includes s sub)].
  - rewrite orb_false_r, startsWith_spec. split.
    + intros (rest & H). by exists [], rest.
    + intros (before & after & H).
      symmetry in H. apply app_eq_nil in H as (-> & H).
      apply app_eq_nil in H as (-> & ->). by exists [].
  - rewrite orb_true_iff, startsWith_spec, IH. split.
    + intros [(rest & ->)|(before & after & ->)].
      * by exists [], rest.
      * by exists (d :: before), after.
    + intros (before & after & H). destruct before as [|b before].
      * left. by exists after.
      * right. injection H as -> ->. by exists before, after.
Qed.

Lemma includes_refl s : Str.includes s s = true.
Proof. apply includes_spec. exists [], []. by rewrite app_nil_r. Qed.

Lemma includes_empty s : Str.includes s [] = true.
Proof. apply includes_spec. by exists [], s. Qed.

Lemma includes_trans s sub sub' :
  Str.includes s sub = true →
  Str.includes sub sub' = true →
  Str.includes s sub' = true.
Proof.
  rewrite !includes_spec.
  intros (b1 & a1 & ->) (b2 & a2 & ->).
  exists (b1 ++ b2), (a2 ++ a1). by rewrite <- !app_assoc.
Qed.

End search_facts.

(** ** The effects settle *)

Section component_facts.

Variable ITEMS_PER_PAGE : Z.
Variable toLowerCase : Str.t → Str.t.
Implicit Types (s cur : St.t) (prev : option St.t) (store : list Ticket.t).

(** After a render whose effects ran, the first effect is not due
    again. *)
Lemma effect1_due_after_commit store prev cur :
  effect1_due (Some cur) (commit ITEMS_PER_PAGE toLowerCase store prev cur)
  = false.
Proof.
  unfold commit.
  destruct (effect1_due prev cur), (effect2_due prev cur); simpl.
  all: rewrite !bool_decide_eq_true_2 by done; done.
Qed.

(** The second effect is due after such a render exactly when the first
    effect ran in it. *)
Lemma effect2_due_after_commit store prev cur :
  effect2_due (Some cur) (commit ITEMS_PER_PAGE toLowerCase store prev cur)
  = effect1_due prev cur.
Proof.
  unfold commit.
  destruct (effect1_due prev cur), (effect2_due prev cur); simpl.
  1-2: rewrite (bool_decide_eq_false_2 (_ = S _)) by lia;
       by rewrite andb_false_r.
  all: rewrite !bool_decide_eq_true_2 by done; done.
Qed.

(** With fuel for two rounds of effects the renders come to rest, in a
    state that can be written down: after a new search term or a refresh
    the tickets are fetched and filtered again, the page is 1 and the
    rows are those of page 1; after a page change alone the rows are
    those of the new page; otherwise nothing changes. *)
Lemma settle_result (fuel : nat) store prev cur :
  (2 ≤ fuel)%nat →
  settle ITEMS_PER_PAGE toLowerCase fuel store prev cur
  = if effect1_due prev cur then
      let allTickets := filtered toLowerCase (St.searchTerm cur) store in
      St.setDisplayedTickets (displayedTickets ITEMS_PER_PAGE 1 allTickets)
        (St.setCurrentPage 1 (St.setAllTickets allTickets cur))
    else if effect2_due prev cur then
      St.setDisplayedTickets
        (displayedTickets ITEMS_PER_PAGE (St.currentPage cur)
           (St.allTickets cur)) cur
    else cur.
Proof.
  intros Hfuel. destruct fuel as [|[|fuel]]; [lia..|].
  cbn [settle].
  rewrite effect1_due_after_commit, effect2_due_after_commit, orb_false_l.
  set (c1 := commit _ _ store prev cur).
  assert (settle ITEMS_PER_PAGE toLowerCase fuel store (Some c1)
            (commit ITEMS_PER_PAGE toLowerCase store (Some cur) c1)
          = commit ITEMS_PER_PAGE toLowerCase store (Some cur) c1) as ->.
  { destruct fuel as [|fuel]; [done|]. cbn [settle].
    rewrite effect1_due_after_commit, effect2_due_after_commit.
    unfold c1. by rewrite effect1_due_after_commit. }
  pose proof (effect1_due_after_commit store prev cur) as H1.
  pose proof (effect2_due_after_commit store prev cur) as H2.
  fold c1 in H1, H2.
  destruct (effect1_due prev cur) eqn:E1; simpl.
  - unfold commit at 1. rewrite H1, H2.
    unfold c1, commit. rewrite E1.
    by destruct (effect2_due prev cur).
  - unfold c1, commit. rewrite E1.
    by destruct (effect2_due prev cur).
Qed.

(** A page request keeps the current page at 1 or on a page that
    exists. *)
Lemma handlePageChange_valid (tp currentPage n : Z) :
  1 ≤ currentPage →
  currentPage = 1 ∨ currentPage ≤ tp →
  1 ≤ handlePageChange tp currentPage n
  ∧ (handlePageChange tp currentPage n = 1
     ∨ handlePageChange tp currentPage n ≤ tp).
Proof.
  intros H1 H2. unfold handlePageChange.
  repeat case_bool_decide; simpl; lia.
Qed.

(** The state left by a handler keeps what the effects do not restore:
    the page bounds and the emptiness of a closed modal. *)
Lemma handle_valid ev s :
  consistent ITEMS_PER_PAGE s →
  let s' := handle ITEMS_PER_PAGE ev s in
  St.allTickets s' = St.allTickets s
  ∧ St.allTickets_ref s' = St.allTickets_ref s
  ∧ St.displayedTickets s' = St.displayedTickets s
  ∧ 1 ≤ St.currentPage s'
  ∧ (St.currentPage s' = 1
     ∨ St.currentPage s'
       ≤ totalPages ITEMS_PER_PAGE (Z.of_nat (length (St.allTickets s))))
  ∧ (St.isModalOpen s' = false → St.selectedTicket s' = None).
Proof.
  intros (Hrows & Hlo & Hhi & Hmodal).
  set (tp := totalPages ITEMS_PER_PAGE (Z.of_nat (length (St.allTickets s)))).
  pose proof (λ n, handlePageChange_valid tp (St.currentPage s) n Hlo Hhi)
    as Hpage.
  destruct ev as [v| | |[n|]|ticket| |[]|[] []]; simpl;
    unfold previousButton, nextButton;
    repeat case_bool_decide;
    repeat split; try done; try apply Hpage; fold tp; auto.
Qed.

Lemma settle_consistent (fuel : nat) store prev cur :
  (2 ≤ fuel)%nat →
  1 ≤ St.currentPage cur →
  St.currentPage cur = 1
    ∨ St.currentPage cur
      ≤ totalPages ITEMS_PER_PAGE (Z.of_nat (length (St.allTickets cur))) →
  (St.isModalOpen cur = false → St.selectedTicket cur = None) →
  (effect1_due prev cur = false → effect2_due prev cur = false →
   St.displayedTickets cur
   = displayedTickets ITEMS_PER_PAGE (St.currentPage cur)
       (St.allTickets cur)) →
  consistent ITEMS_PER_PAGE
    (settle ITEMS_PER_PAGE toLowerCase fuel store prev cur).
Proof.
  intros Hfuel Hlo Hhi Hmodal Hrows. rewrite settle_result by done.
  destruct (effect1_due prev cur); [|destruct (effect2_due prev cur)];
    unfold consistent; simpl; split_and!; auto; lia.
Qed.

Lemma mount_consistent (fuel : nat) store :
  (2 ≤ fuel)%nat →
  consistent ITEMS_PER_PAGE (mount ITEMS_PER_PAGE toLowerCase fuel store).
Proof.
  intros Hfuel. unfold mount.
  apply settle_consistent; simpl; [done|lia|by left|done|done].
Qed.

Lemma step_consistent (fuel : nat) store ev s :
  (2 ≤ fuel)%nat →
  consistent ITEMS_PER_PAGE s →
  consistent ITEMS_PER_PAGE (step ITEMS_PER_PAGE toLowerCase fuel store ev s).
Proof.
  intros Hfuel Hs. unfold step.
  pose proof (handle_valid ev s Hs) as (Hall & Href & Hrows & Hlo & Hhi & Hm).
  apply settle_consistent; [done|done|by rewrite Hall|done|].
  intros _ H2. unfold effect2_due in H2.
  apply negb_false_iff, andb_true_iff in H2 as [Hp%bool_decide_eq_true _].
  rewrite Hrows, Hall, <- Hp. apply Hs.
Qed.

Lemma run_consistent (fuel : nat) store history :
  (2 ≤ fuel)%nat →
  consistent ITEMS_PER_PAGE
    (run ITEMS_PER_PAGE toLowerCase fuel store history).
Proof.
  intros Hfuel. unfold run.
  pose proof (mount_consistent fuel store Hfuel) as Hm.
  revert Hm. generalize (mount ITEMS_PER_PAGE toLowerCase fuel store).
  induction history as [|h history IH]; intros s Hs; simpl; [done|].
  by apply IH, step_consistent.
Qed.

End component_facts.

(** ** Properties of the search *)

(** X21: an empty search term keeps every ticket, in the order
    fetched, for a case mapping that leaves the empty string empty. *)
Theorem empty_search_keeps_all
    (toLowerCase : Str.t → Str.t) (fetchedTickets : list Ticket.t) :
  toLowerCase [] = [] →
  filtered toLowerCase [] fetchedTickets = fetchedTickets.
Proof.
  intros Hlow. unfold filtered.
  induction fetchedTickets as [|ticket fetched IH]; [done|].
  rewrite filter_cons_True, IH; [done|].
  unfold matches. by rewrite Hlow, !includes_empty.
Qed.

Lemma empty_search_keeps_all_witness :
  Sample.toLowerCase [] = []
  ∧ filtered Sample.toLowerCase [] Sample.store = Sample.store.
Proof.
  split; [reflexivity|].
  apply (empty_search_keeps_all Sample.toLowerCase Sample.store).
  reflexivity.
Defined.

(** X22: a search for the exact id, title or submitter of a fetched
    ticket finds that ticket, whatever the case mapping. *)
Theorem search_finds_own_fields
    (toLowerCase : Str.t → Str.t) (searchTerm : Str.t)
    (ticket : Ticket.t) (fetchedTickets : list Ticket.t) :
  ticket ∈ fetchedTickets →
  searchTerm = Ticket.id ticket
    ∨ searchTerm = Ticket.title ticket
    ∨ searchTerm = Ticket.submittedBy ticket →
  ticket ∈ filtered toLowerCase searchTerm fetchedTickets.
Proof.
  intros Hin Hterm. unfold filtered. apply list_elem_of_filter.
  split; [|done]. unfold matches.
  destruct Hterm as [->|[->| ->]]; rewrite includes_refl;
    by rewrite ?orb_true_r.
Qed.

Lemma search_finds_own_fields_witness :
  Sample.ticket 3 ∈ Sample.store
  ∧ ([84; 51]%N = Ticket.id (Sample.ticket 3)
     ∨ [84; 51]%N = Ticket.title (Sample.ticket 3)
     ∨ [84; 51]%N = Ticket.submittedBy (Sample.ticket 3))
  ∧ Sample.ticket 3 ∈ filtered Sample.toLowerCase [84; 51]%N Sample.store.
Proof.
  assert (Sample.ticket 3 ∈ Sample.store) as Hin
    by (apply (bool_decide_unpack _); vm_compute; exact I).
  split; [exact Hin|]. split; [left; reflexivity|].
  apply (search_finds_own_fields Sample.toLowerCase [84; 51]%N
           (Sample.ticket 3) Sample.store); [exact Hin|left; reflexivity].
Defined.

(** X23: a search term whose lower-case form occurs inside that of
    another term finds every ticket the other term finds: extending a
    term can only narrow the result. *)
Theorem search_narrows
    (toLowerCase : Str.t → Str.t) (searchTerm longer : Str.t)
    (ticket : Ticket.t) (fetchedTickets : list Ticket.t) :
  Str.includes (toLowerCase longer) (toLowerCase searchTerm) = true →
  ticket ∈ filtered toLowerCase longer fetchedTickets →
  ticket ∈ filtered toLowerCase searchTerm fetchedTickets.
Proof.
  intros Hsub. unfold filtered. rewrite !list_elem_of_filter.
  intros [Hm Hin]. split; [|done]. unfold matches in *.
  apply orb_true_iff in Hm as [Hm|Hm];
    [apply orb_true_iff in Hm as [Hm|Hm]|];
    rewrite (includes_trans _ _ _ Hm Hsub); by rewrite ?orb_true_r.
Qed.

Lemma search_narrows_witness :
  Str.includes (Sample.toLowerCase [84; 51]%N) (Sample.toLowerCase [116]%N)
  = true
  ∧ Sample.ticket 3 ∈ filtered Sample.toLowerCase [84; 51]%N Sample.store
  ∧ Sample.ticket 3 ∈ filtered Sample.toLowerCase [116]%N Sample.store.
Proof.
  assert (Sample.ticket 3
          ∈ filtered Sample.toLowerCase [84; 51]%N Sample.store) as Hin
    by (apply (bool_decide_unpack _); vm_compute; exact I).
  split; [reflexivity|]. split; [exact Hin|].
  apply (search_narrows Sample.toLowerCase [116]%N [84; 51]%N
           (Sample.ticket 3) Sample.store); [reflexivity|exact Hin].
Defined.

(** ** Properties of the component as a whole *)



(** X25: after mounting and any series of events, whatever the ticket
    store holds at each of them, the rows shown are those of the current
    page of the filtered list, the current page is 1 or a page that
    exists, and a closed modal holds no ticket. *)
Theorem component_stays_consistent
    (ITEMS_PER_PAGE : Z) (toLowerCase : Str.t → Str.t) (fuel : nat)
    (store : list Ticket.t) (history : list (list Ticket.t * event)) :
  (2 ≤ fuel)%nat →
  consistent ITEMS_PER_PAGE
    (run ITEMS_PER_PAGE toLowerCase fuel store history).
Proof. apply run_consistent. Qed.

Lemma component_stays_consistent_witness :
  (2 ≤ 2)%nat
  ∧ consistent 2
      (run 2 Sample.toLowerCase 2 Sample.store
         [(Sample.store, NextClick);
          (Sample.store, SearchChange [84; 51]%N);
          (Sample.store, OpenDetails (Some (Sample.ticket 3)));
          ([], CloseDetails)]).
Proof.
  split; [lia|].
  apply (component_stays_consistent 2 Sample.toLowerCase 2 Sample.store).
  lia.
Defined.

(** X26: a new search term filters the fetched tickets by it and goes
    back to page 1, showing the first rows of the result. *)
Theorem search_resets_page
    (ITEMS_PER_PAGE : Z) (toLowerCase : Str.t → Str.t) (fuel : nat)
    (store : list Ticket.t) (s : St.t) (value : Str.t) :
  (2 ≤ fuel)%nat →
  value ≠ St.searchTerm s →
  let s' := step ITEMS_PER_PAGE toLowerCase fuel store (SearchChange value) s
  in
  St.searchTerm s' = value
  ∧ St.currentPage s' = 1
  ∧ St.allTickets s' = filtered toLowerCase value store
  ∧ St.displayedTickets s'
    = displayedTickets ITEMS_PER_PAGE 1 (filtered toLowerCase value store).
Proof.
  intros Hfuel Hne. unfold step. rewrite settle_result by done.
  unfold effect1_due. simpl.
  by rewrite (bool_decide_eq_false_2 (St.searchTerm s = value)).
Qed.

Lemma search_resets_page_witness :
  let s := step 2 Sample.toLowerCase 2 Sample.store NextClick
             (mount 2 Sample.toLowerCase 2 Sample.store) in
  let s' := step 2 Sample.toLowerCase 2 Sample.store
              (SearchChange [84; 51]%N) s in
  (2 ≤ 2)%nat
  ∧ [84; 51]%N ≠ St.searchTerm s
  ∧ St.currentPage s = 2
  ∧ St.searchTerm s' = [84; 51]%N
  ∧ St.currentPage s' = 1
  ∧ St.allTickets s' = filtered Sample.toLowerCase [84; 51]%N Sample.store
  ∧ St.displayedTickets s'
    = displayedTickets 2 1
        (filtered Sample.toLowerCase [84; 51]%N Sample.store).
Proof.
  intros s s'. split; [lia|]. split; [discriminate|].
  split; [reflexivity|].
  apply (search_resets_page 2 Sample.toLowerCase 2 Sample.store s
           [84; 51]%N); [lia|discriminate].
Defined.

(** X27: closing the details modal, a ticket resolved and a ticket
    deleted each fetch the tickets again, filtered by the current search
    term, and go back to page 1. *)
Theorem refresh_resets_page
    (ITEMS_PER_PAGE : Z) (toLowerCase : Str.t → Str.t) (fuel : nat)
    (store : list Ticket.t) (s : St.t) (ev : event) :
  (2 ≤ fuel)%nat →
  ev = CloseDetails ∨ ev = ResolveTicket true ∨ ev = DeleteTicket true true →
  let s' := step ITEMS_PER_PAGE toLowerCase fuel store ev s in
  St.currentPage s' = 1
  ∧ St.allTickets s' = filtered toLowerCase (St.searchTerm s) store
  ∧ St.displayedTickets s'
    = displayedTickets ITEMS_PER_PAGE 1
        (filtered toLowerCase (St.searchTerm s) store).
Proof.
  intros Hfuel Hev. unfold step. rewrite settle_result by done.
  unfold effect1_due.
  destruct Hev as [->|[->| ->]]; simpl;
    rewrite (bool_decide_eq_false_2 (St.refreshTrigger s = _)) by lia;
    by rewrite andb_false_r.
Qed.

Lemma refresh_resets_page_witness :
  let s := step 2 Sample.toLowerCase 2 Sample.store NextClick
             (mount 2 Sample.toLowerCase 2 Sample.store) in
  let s' := step 2 Sample.toLowerCase 2 Sample.store CloseDetails s in
  (2 ≤ 2)%nat
  ∧ (CloseDetails = CloseDetails ∨ CloseDetails = ResolveTicket true
     ∨ CloseDetails = DeleteTicket true true)
  ∧ St.currentPage s = 2
  ∧ St.currentPage s' = 1
  ∧ St.allTickets s'
    = filtered Sample.toLowerCase (St.searchTerm s) Sample.store
  ∧ St.displayedTickets s'
    = displayedTickets 2 1
        (filtered Sample.toLowerCase (St.searchTerm s) Sample.store).
Proof.
  intros s s'. split; [lia|]. split; [left; reflexivity|].
  split; [reflexivity|].
  apply (refresh_resets_page 2 Sample.toLowerCase 2 Sample.store s
           CloseDetails); [lia|left; reflexivity].
Defined.

(** X28: a resolve that fails, a delete that is not confirmed and a
    delete that fails leave the whole state as it is: no fetch, no
    return to page 1. *)
Theorem failed_action_changes_nothing
    (ITEMS_PER_PAGE : Z) (toLowerCase : Str.t → Str.t) (fuel : nat)
    (store : list Ticket.t) (s : St.t) (ev : event) :
  ev = ResolveTicket false
    ∨ (∃ success, ev = DeleteTicket false success)
    ∨ ev = DeleteTicket true false →
  step ITEMS_PER_PAGE toLowerCase fuel store ev s = s.
Proof.
  intros Hev. unfold step.
  assert (handle ITEMS_PER_PAGE ev s = s) as ->
    by (destruct Hev as [->|[[success ->]| ->]]; done).
  destruct fuel as [|fuel]; [done|]. simpl.
  by rewrite !bool_decide_eq_true_2 by done.
Qed.

Lemma failed_action_changes_nothing_witness :
  let s := step 2 Sample.toLowerCase 2 Sample.store NextClick
             (mount 2 Sample.toLowerCase 2 Sample.store) in
  (DeleteTicket false true = ResolveTicket false
   ∨ (∃ success, DeleteTicket false true = DeleteTicket false success)
   ∨ DeleteTicket false true = DeleteTicket true false)
  ∧ step 2 Sample.toLowerCase 2 [] (DeleteTicket false true) s = s.
Proof.
  intros s.
  split; [right; left; exists true; reflexivity|].
  apply (failed_action_changes_nothing 2 Sample.toLowerCase 2 []
           s (DeleteTicket false true)).
  right; left; exists true; reflexivity.
Defined.

(** X29: in a consistent state a click on the entry of a page from 1 to
    [totalPages] makes it the current page and shows its rows; the
    filtered list and the search term stay as they are. *)
Theorem page_click_shows_page
    (ITEMS_PER_PAGE : Z) (toLowerCase : Str.t → Str.t) (fuel : nat)
    (store : list Ticket.t) (s : St.t) (n : Z) :
  (2 ≤ fuel)%nat →
  consistent ITEMS_PER_PAGE s →
  1 ≤ n ≤ totalPages ITEMS_PER_PAGE (Z.of_nat (length (St.allTickets s))) →
  let s' := step ITEMS_PER_PAGE toLowerCase fuel store (PageClick (Page n)) s
  in
  St.currentPage s' = n
  ∧ St.displayedTickets s'
    = displayedTickets ITEMS_PER_PAGE n (St.allTickets s)
  ∧ St.allTickets s' = St.allTickets s
  ∧ St.searchTerm s' = St.searchTerm s.
Proof.
  intros Hfuel (Hrows & _) Hn. unfold step. rewrite settle_result by done.
  unfold effect1_due, effect2_due. simpl.
  unfold handlePageChange.
  rewrite (bool_decide_eq_true_2 (n >= 1)) by lia.
  rewrite (bool_decide_eq_true_2 (n ≤ _)) by lia. simpl.
  rewrite (bool_decide_eq_true_2 (St.searchTerm s = _)) by done.
  rewrite (bool_decide_eq_true_2 (St.refreshTrigger s = _)) by done.
  rewrite (bool_decide_eq_true_2 (St.allTickets_ref s = _)) by done.
  simpl. rewrite andb_true_r.
  case_bool_decide as Hp; simpl; [|done].
  by rewrite Hrows, Hp.
Qed.



Lemma page_click_shows_page_witness :
  let s := mount 2 Sample.toLowerCase 2 Sample.store in
  let s' := step 2 Sample.toLowerCase 2 Sample.store (PageClick (Page 3)) s
  in
  (2 ≤ 2)%nat
  ∧ consistent 2 s
  ∧ 1 ≤ 3 ≤ totalPages 2 (Z.of_nat (length (St.allTickets s)))
  ∧ St.currentPage s' = 3
  ∧ St.displayedTickets s' = displayedTickets 2 3 (St.allTickets s)
  ∧ St.allTickets s' = St.allTickets s
  ∧ St.searchTerm s' = St.searchTerm s.
Proof.
  intros s s'.
  assert (consistent 2 s) as Hs
    by (unfold consistent; split_and!;
        [reflexivity|reflexivity|left; reflexivity|reflexivity]).
  assert (1 ≤ 3 ≤ totalPages 2 (Z.of_nat (length (St.allTickets s)))) as Hn
    by (change (totalPages 2 _) with 3; lia).
  split; [lia|]. split; [exact Hs|]. split; [exact Hn|].
  apply (page_click_shows_page 2 Sample.toLowerCase 2 Sample.store s 3);
    [lia|exact Hs|exact Hn].
Defined.
